(** * Conway's Game of Life (main.py): Cell, Grid and the mouse handler

    A shallow embedding of [src/main.py].  Python integers are [Z]; the
    numpy array [Grid.cells] is a list of rows holding references to Cell
    objects; the Cell objects live in a store owned by the grid, so that
    [cell.toggle()] on a reference collected earlier mutates the object
    the array points to.  Methods are computations in a state-and-exception
    monad over the object they act on.  The cell size is an integer, as in
    [Game(100, 100, 10)], so that [//] is floor division on integers; a
    rectangle is modelled with the exact products it is built from, which
    is what [pygame.Rect] holds as long as they fit in 32 bits. *)

From stdpp Require Import base tactics option numbers strings list.

Local Open Scope Z_scope.

(** ** The Python fragment the program relies on *)

Module Py.

(** Exceptions the modelled code can raise.  [DanglingRef] has no Python
    counterpart: a reference always points to an object; it is what the
    model answers for a location outside the store, and it is shown below
    never to occur in a grid built by the constructor.  [StillRunning] is
    no Python exception either: it is how the model of [Game.run] ends when
    the recorded input is used up while [running] is still set, a point at
    which [run()] has not returned. *)
Inductive exn :=
| IndexError | ZeroDivisionError | DanglingRef | OverflowError | StillRunning.

(** The outcome of a call: a value, or an exception that propagates; both
    come with the state of the object at that point. *)
Inductive result (S A : Type) :=
| Ok (a : A) (s : S)
| Raise (e : exn) (s : S).
Arguments Ok {S A} a s.
Arguments Raise {S A} e s.

Definition M (S A : Type) : Type := S → result S A.

Definition ret {S A} (a : A) : M S A := λ s, Ok a s.
Definition bind {S A B} (m : M S A) (k : A → M S B) : M S B :=
  λ s, match m s with
       | Ok a s' => k a s'
       | Raise e s' => Raise e s'
       end.
Definition raise {S A} (e : exn) : M S A := λ s, Raise e s.
Definition gets {S A} (f : S → A) : M S A := λ s, Ok (f s) s.
Definition modify {S} (f : S → S) : M S unit := λ s, Ok tt (f s).

Definition state_of {S A} (r : result S A) : S :=
  match r with Ok _ s => s | Raise _ s => s end.

(** [range(a, b)] *)
Definition range (a b : Z) : list Z := seqZ a (b - a).

(** The exception of an integer index that an axis does not accept: numpy
    fails to convert an index in [2^63, 2^64) and raises OverflowError; for
    every other index outside the axis it raises IndexError. *)
Definition index_error (k : Z) : exn :=
  if decide (2 ^ 63 ≤ k < 2 ^ 64) then OverflowError else IndexError.

(** [l[k]] on a numpy axis: a negative index counts from the end, anything
    outside [-len, len) raises [index_error].  An axis has fewer than 2^63
    entries, so an index within [-len, len) is always one numpy can
    convert. *)
Definition getitem {S A} (l : list A) (k : Z) : M S A :=
  let n := Z.of_nat (length l) in
  let k' := if decide (k < 0) then k + n else k in
  if decide (0 ≤ k' < n) then
    match l !! Z.to_nat k' with
    | Some x => ret x
    | None => raise (index_error k)
    end
  else raise (index_error k).

(** [x // y] on integers: floor division. *)
Definition floordiv {S} (x y : Z) : M S Z :=
  if decide (y = 0) then raise ZeroDivisionError else ret (x `div` y).

(** [sum(...)] over booleans: [True] counts 1. *)
Definition sum (l : list bool) : Z := foldl (λ acc b, acc + Z.b2z b) 0 l.

End Py.

Export Py(exn(..), result(..), M).

Global Instance M_ret {S} : MRet (M S) := λ A, @Py.ret S A.
Global Instance M_bind {S} : MBind (M S) := λ A B k m, @Py.bind S A B m k.

(** [list(filter(f, l))] and [for x in l: f(x)] *)
Fixpoint filterM {S A} (f : A → M S bool) (l : list A) : M S (list A) :=
  match l with
  | [] => mret []
  | x :: l => b ← f x; k ← filterM f l; mret (if b : bool then x :: k else k)
  end.

Fixpoint forM_ {S A} (l : list A) (f : A → M S unit) : M S unit :=
  match l with
  | [] => mret tt
  | x :: l => f x;; forM_ l f
  end.

(** ** pygame: rectangles and what is drawn on a surface *)

Module pygame.

(** [pygame.Rect(left, top, width, height)] *)
Record Rect := { left : Z; top : Z; width : Z; height : Z }.

(** The pixels a filled rectangle covers ([Rect.collidepoint]). *)
Definition collidepoint (r : Rect) (x y : Z) : Prop :=
  left r ≤ x < left r + width r ∧ top r ≤ y < top r + height r.

(** [pygame.Rect] keeps its four fields in 32-bit C ints: a value beyond
    that range is stored wrapped.  [stored r] is what a Rect built from the
    exact values of [r] holds; below, rectangles are built from exact
    products, which is what pygame holds whenever [stored r = r]. *)
Definition c_int (z : Z) : Z := (z + 2 ^ 31) `mod` 2 ^ 32 - 2 ^ 31.

Definition stored (r : Rect) : Rect :=
  {| left := c_int (left r); top := c_int (top r);
     width := c_int (width r); height := c_int (height r) |}.

Inductive colour := BLACK | WHITE.

Inductive draw_op :=
| draw_rect (c : colour) (r : Rect)
| draw_line (c : colour) (start_pos end_pos : Z * Z).

(** A surface, as the sequence of drawing calls made on it. *)
Definition Surface := list draw_op.

Inductive Event := QUIT | KEYDOWN (key : Z) | OTHER.
Definition K_SPACE : Z := 32.

(** What [pygame.mouse.get_pressed()[0]] and [pygame.mouse.get_pos()]
    answer at one point of the event loop. *)
Record mouse := { pressed : bool; pos : Z * Z }.

(** The display surface of the game, as the sequence of calls made on it:
    [fill], the [blit] of a text rendered by a font, and the drawing calls
    of the grid. *)
Inductive screen_op :=
| fill (c : colour)
| blit_text (text : string) (c : colour) (dest : Z * Z)
| shape (op : draw_op).

Definition Screen := list screen_op.

End pygame.

Global Instance Rect_eq_dec : EqDecision pygame.Rect.
Proof. solve_decision. Defined.

Global Instance collidepoint_dec r x y : Decision (pygame.collidepoint r x y).
Proof. unfold pygame.collidepoint. apply _. Defined.

Global Instance Event_eq_dec : EqDecision pygame.Event.
Proof. solve_decision. Defined.

(** ** class Cell *)

Module Cell.

Record t := { i : Z; j : Z; rect : pygame.Rect; alive : bool }.

Definition __init__ (i j size : Z) (alive : bool) : t :=
  {| i := i; j := j;
     rect := {| pygame.left := i * size; pygame.top := j * size;
                pygame.width := size; pygame.height := size |};
     alive := alive |}.

Definition toggle (self : t) : t :=
  {| i := i self; j := j self; rect := rect self;
     alive := negb (alive self) |}.

Definition draw (self : t) (surface : pygame.Surface) : pygame.Surface :=
  surface ++ [pygame.draw_rect pygame.BLACK (rect self)].

End Cell.

(** A reference to a Cell object: its index in the store. *)
Abbreviation ref := nat (only parsing).

(** ** class Grid *)

Module Grid.

Record t := {
  n_rows : Z;
  n_cols : Z;
  cell_size : Z;
  cells : list (list ref);
  store : list Cell.t
}.

Definition blank : t :=
  {| n_rows := 0; n_cols := 0; cell_size := 0; cells := []; store := [] |}.

Definition set_store (h : list Cell.t) (self : t) : t :=
  {| n_rows := n_rows self; n_cols := n_cols self;
     cell_size := cell_size self; cells := cells self; store := h |}.

(** Reading and writing the object behind a reference. *)
Definition deref (c : ref) : M t Cell.t :=
  λ self, match store self !! c with
          | Some o => Ok o self
          | None => Raise Py.DanglingRef self
          end.

Definition assign (c : ref) (o : Cell.t) : M t unit :=
  Py.modify (λ self, set_store (<[c := o]> (store self)) self).

(** [Cell(i, j, size)]: a fresh object at the end of the store. *)
Definition new_cell (i j size : Z) : M t ref :=
  λ self, Ok (length (store self))
             (set_store (store self ++ [Cell.__init__ i j size false]) self).

(** [cell.toggle()] through a reference. *)
Definition cell_toggle (c : ref) : M t unit :=
  o ← deref c; assign c (Cell.toggle o).

Definition set_dims (n_rows n_cols cell_size : Z) (self : t) : t :=
  {| n_rows := n_rows; n_cols := n_cols; cell_size := cell_size;
     cells := cells self; store := store self |}.

Definition set_cells (cs : list (list ref)) (self : t) : t :=
  {| n_rows := n_rows self; n_cols := n_cols self;
     cell_size := cell_size self; cells := cs; store := store self |}.

Definition __init__ (n_rows n_cols cell_size : Z) : M t unit :=
  Py.modify (set_dims n_rows n_cols cell_size);;
  n_rows ← Py.gets Grid.n_rows;
  n_cols ← Py.gets Grid.n_cols;
  cell_size ← Py.gets Grid.cell_size;
  cs ← mapM (λ i, mapM (λ j, new_cell i j cell_size) (Py.range 0 n_cols))
            (Py.range 0 n_rows);
  Py.modify (set_cells cs).

(** [Grid(n_rows, n_cols, cell_size)] *)
Definition make (n_rows n_cols cell_size : Z) : t :=
  Py.state_of (__init__ n_rows n_cols cell_size blank).

(** The index pairs the comprehension of [neighbors] visits, in order. *)
Definition neighbor_indices (ci cj n_rows n_cols : Z) : list (Z * Z) :=
  i ← Py.range (Z.max (ci - 1) 0) (Z.min (ci + 2) n_rows);
  j ← Py.range (Z.max (cj - 1) 0) (Z.min (cj + 2) n_cols);
  if negb (bool_decide (i = ci) && bool_decide (j = cj)) then [(i, j)] else [].

Definition neighbors (cell : ref) : M t (list ref) :=
  c ← deref cell;
  n_rows ← Py.gets n_rows;
  n_cols ← Py.gets n_cols;
  cells ← Py.gets cells;
  mapM (λ '(i, j), row ← Py.getitem cells i; Py.getitem row j)
       (neighbor_indices (Cell.i c) (Cell.j c) n_rows n_cols).

Definition count_alive_neighbors (cell : ref) : M t Z :=
  ns ← neighbors cell;
  flags ← mapM (λ neighbor, o ← deref neighbor; mret (Cell.alive o)) ns;
  mret (Py.sum flags).

Definition rule (cell : ref) : M t bool :=
  c ← deref cell;
  dies ← (if Cell.alive c then
            n ← count_alive_neighbors cell;
            mret (negb (bool_decide (2 ≤ n) && bool_decide (n ≤ 3)))
          else mret false);
  if dies : bool then mret true
  else
    c ← deref cell;
    if negb (Cell.alive c) then
      n ← count_alive_neighbors cell;
      mret (bool_decide (n = 3))
    else mret false.

(** [update] with the order in which the cells are visited left open;
    the method itself visits [self.cells.flatten()]. *)
Definition update_in (order : list ref) : M t unit :=
  cells_to_toggle ← filterM rule order;
  forM_ cells_to_toggle cell_toggle.

Definition update : M t unit :=
  cells ← Py.gets cells;
  update_in (mjoin cells).

Definition toggle (i j : Z) : M t unit :=
  cells ← Py.gets cells;
  row ← Py.getitem cells i;
  cell ← Py.getitem row j;
  cell_toggle cell.

Definition draw (surface : pygame.Surface) : M t pygame.Surface :=
  n_rows ← Py.gets n_rows;
  n_cols ← Py.gets n_cols;
  cell_size ← Py.gets cell_size;
  cells ← Py.gets cells;
  let surface :=
    foldl (λ s i, s ++ [pygame.draw_line pygame.BLACK
                          (0, i * cell_size)
                          (n_cols * cell_size, i * cell_size)])
          surface (Py.range 0 (n_rows + 1)) in
  let surface :=
    foldl (λ s j, s ++ [pygame.draw_line pygame.BLACK
                          (j * cell_size, 0)
                          (j * cell_size, n_rows * cell_size)])
          surface (Py.range 0 (n_cols + 1)) in
  os ← mapM deref (mjoin cells);
  mret (foldl (λ s o, if Cell.alive o then Cell.draw o s else s) surface os).

End Grid.

(** ** class Game: the part of it that touches the grid *)

Module Game.

Record t := {
  cell_size : Z;
  height : Z;
  width : Z;
  window_size : Z * Z;
  grid : Grid.t;
  running : bool;
  paused : bool
}.

(** The game [Game(n_rows, n_cols, cell_size)] leaves once
    [pygame.display.set_mode] has opened the window; a constructor that
    fails there (a negative width or height, no display) builds no game and
    is not modelled. *)
Definition make (n_rows n_cols cell_size : Z) : t :=
  {| cell_size := cell_size;
     height := n_rows * cell_size;
     width := n_cols * cell_size;
     window_size := (n_cols * cell_size, n_rows * cell_size);
     grid := Grid.make n_rows n_cols cell_size;
     running := true;
     paused := true |}.

Definition set_grid (g : Grid.t) (self : t) : t :=
  {| cell_size := cell_size self; height := height self;
     width := width self; window_size := window_size self;
     grid := g; running := running self; paused := paused self |}.

Definition set_running (b : bool) (self : t) : t :=
  {| cell_size := cell_size self; height := height self;
     width := width self; window_size := window_size self;
     grid := grid self; running := b; paused := paused self |}.

Definition set_paused (b : bool) (self : t) : t :=
  {| cell_size := cell_size self; height := height self;
     width := width self; window_size := window_size self;
     grid := grid self; running := running self; paused := b |}.

(** A method call on [self.grid]; an exception passes through. *)
Definition on_grid {A} (m : M Grid.t A) : M t A :=
  λ self, match m (grid self) with
          | Ok a g => Ok a (set_grid g self)
          | Raise e g => Raise e (set_grid g self)
          end.

(** Lines 205-207: the left button is down, toggle the cell under it.  The
    cell size is an integer here; with a float cell size the quotients are
    floats, which the array does not accept as indices. *)
Definition handle_mouse (m : pygame.mouse) : M t unit :=
  if pygame.pressed m then
    let pos := pygame.pos m in
    cell_size ← Py.gets cell_size;
    i ← Py.floordiv pos.1 cell_size;
    j ← Py.floordiv pos.2 cell_size;
    on_grid (Grid.toggle i j)
  else mret tt.

(** The event loop body; each event comes with what the mouse reports
    when the loop reaches line 205 for it. *)
Fixpoint handle_events (events : list (pygame.Event * pygame.mouse)) : M t unit :=
  match events with
  | [] => mret tt
  | (event, m) :: events =>
      match event with
      | pygame.QUIT => Py.modify (set_running false)
      | _ =>
          (match event with
           | pygame.KEYDOWN key =>
               if decide (key = pygame.K_SPACE)
               then Py.modify (λ self, set_paused (negb (paused self)) self)
               else mret tt
           | _ => mret tt
           end);;
          handle_mouse m;;
          handle_events events
      end
  end.

Definition update_step : M t unit :=
  paused ← Py.gets paused;
  if paused : bool then mret tt else on_grid Grid.update.

(** [self.commands], set once by the constructor and never assigned again. *)
Definition commands : list string :=
  ["Commands"%string;
   "Press RETURN: PAUSE/UNPAUSE the game"%string;
   "Left click: toggle a cell"%string].

(** [display_commands]: one line of text per command, [pos_y] advancing by
    the font size plus 5.  The screen is passed along instead of being read
    from [self.screen]. *)
Definition display_commands (commands : option (list string))
    (screen : pygame.Screen) : pygame.Screen :=
  let commands := default Game.commands commands in
  let font_size := 20 in
  let pos_y := 10 in
  (foldl (λ '(screen, pos_y) command,
            (screen ++ [pygame.blit_text command pygame.BLACK (10, pos_y)],
             pos_y + (font_size + 5)))
         (screen, pos_y) commands).1.

(** [Game.draw]: clear the screen, show the commands, let the grid draw
    itself on the screen. *)
Definition draw (screen : pygame.Screen) : M t pygame.Screen :=
  let screen := screen ++ [pygame.fill pygame.WHITE] in
  let screen := display_commands None screen in
  ops ← on_grid (Grid.draw []);
  mret (screen ++ (pygame.shape <$> ops)).

(** [Game.run]: one element of [frames] is what [pygame.event.get()] and
    the mouse deliver during one pass of the loop.  The loop returns, with
    [Ok], only when it finds [running] cleared; when the recorded input
    ends with [running] still set, the loop has not returned and the model
    stops with [StillRunning] and the state reached. *)
Fixpoint run (frames : list (list (pygame.Event * pygame.mouse)))
    (screen : pygame.Screen) : M t pygame.Screen :=
  match frames with
  | [] =>
      running ← Py.gets running;
      if running : bool then Py.raise StillRunning else mret screen
  | events :: frames =>
      running ← Py.gets running;
      if running : bool then
        handle_events events;;
        update_step;;
        screen ← draw screen;
        run frames screen
      else mret screen
  end.

End Game.

(** ** Observing a grid *)

(** The reference stored at [cells[i][j]], for non-negative indices. *)
Definition loc_at (g : Grid.t) (i j : Z) : option ref :=
  if decide (0 ≤ i ∧ 0 ≤ j) then
    row ← Grid.cells g !! Z.to_nat i; row !! Z.to_nat j
  else None.

Definition ref_at (g : Grid.t) (p : Z * Z) : ref :=
  default 0%nat (loc_at g p.1 p.2).

Definition cell_at (g : Grid.t) (i j : Z) : option Cell.t :=
  l ← loc_at g i j; Grid.store g !! l.

(** The alive flag of the cell at an index pair; the board of the grid. *)
Definition alive_at (g : Grid.t) (p : Z * Z) : bool :=
  from_option Cell.alive false (cell_at g p.1 p.2).

Definition in_grid (n_rows n_cols : Z) (p : Z * Z) : Prop :=
  0 ≤ p.1 < n_rows ∧ 0 ≤ p.2 < n_cols.

Global Instance in_grid_dec n_rows n_cols p : Decision (in_grid n_rows n_cols p).
Proof. unfold in_grid. apply _. Defined.

(** All index pairs of an [n_rows] by [n_cols] grid, row by row. *)
Definition positions (n_rows n_cols : Z) : list (Z * Z) :=
  i ← Py.range 0 n_rows; j ← Py.range 0 n_cols; [(i, j)].

(** The index pairs of the alive cells, row by row. *)
Definition alive_cells (g : Grid.t) : list (Z * Z) :=
  filter (λ p, alive_at g p) (positions (Grid.n_rows g) (Grid.n_cols g)).

(** What the constructor establishes and every method keeps: the array is
    [n_rows] by [n_cols], and the reference at [cells[i][j]] points to a
    Cell whose fields are those [Cell(i, j, cell_size)] gave it. *)
Record wf (g : Grid.t) : Prop := {
  wf_rows : length (Grid.cells g) = Z.to_nat (Grid.n_rows g);
  wf_cols : ∀ row, row ∈ Grid.cells g → length row = Z.to_nat (Grid.n_cols g);
  wf_cell : ∀ (a b : nat) row l,
    Grid.cells g !! a = Some row → row !! b = Some l →
    ∃ c, Grid.store g !! l = Some c ∧
         Cell.i c = Z.of_nat a ∧ Cell.j c = Z.of_nat b ∧
         Cell.rect c = Cell.rect (Cell.__init__ (Z.of_nat a) (Z.of_nat b)
                                    (Grid.cell_size g) false)
}.

(** Two states of one grid that differ at most in alive flags. *)
Record frame (g g' : Grid.t) : Prop := {
  frame_n_rows : Grid.n_rows g' = Grid.n_rows g;
  frame_n_cols : Grid.n_cols g' = Grid.n_cols g;
  frame_cell_size : Grid.cell_size g' = Grid.cell_size g;
  frame_cells : Grid.cells g' = Grid.cells g;
  frame_length : length (Grid.store g') = length (Grid.store g);
  frame_fields : ∀ l c, Grid.store g !! l = Some c →
    ∃ c', Grid.store g' !! l = Some c' ∧
          Cell.i c' = Cell.i c ∧ Cell.j c' = Cell.j c ∧
          Cell.rect c' = Cell.rect c
}.

(** ** The reference semantics: one synchronous generation of Life

    Written from the rule B3/S23 on a bounded board, independently of the
    code: the eight offsets of the Moore neighbourhood, those that fall on
    the board, and a new board computed from the old one as a whole. *)

Definition offsets8 : list (Z * Z) :=
  [(-1, -1); (-1, 0); (-1, 1); (0, -1); (0, 1); (1, -1); (1, 0); (1, 1)].

Definition moore (n_rows n_cols : Z) (p : Z * Z) : list (Z * Z) :=
  filter (in_grid n_rows n_cols) ((λ d, (p.1 + d.1, p.2 + d.2)) <$> offsets8).

Definition live_count (n_rows n_cols : Z) (b : Z * Z → bool) (p : Z * Z) : Z :=
  Z.of_nat (length (filter (λ q, b q) (moore n_rows n_cols p))).

Definition B3S23 (alive : bool) (n : Z) : bool :=
  if alive then bool_decide (n = 2 ∨ n = 3) else bool_decide (n = 3).

Definition life_step (n_rows n_cols : Z) (b : Z * Z → bool) : Z * Z → bool :=
  λ p, B3S23 (b p) (live_count n_rows n_cols b p).

(** The flip decision in the words of the rule: an alive cell whose count
    is outside [2,3] dies, a dead cell whose count is 3 is born. *)
Definition should_flip (alive : bool) (n : Z) : Prop :=
  (alive = true ∧ ¬ (2 ≤ n ≤ 3)) ∨ (alive = false ∧ n = 3).

Global Instance should_flip_dec alive n : Decision (should_flip alive n).
Proof. unfold should_flip. apply _. Defined.

(** The decision for the object behind a reference, read off a grid state. *)
Definition flip_of (g : Grid.t) (l : ref) : bool :=
  match Grid.store g !! l with
  | Some c =>
      bool_decide (should_flip (Cell.alive c)
                     (live_count (Grid.n_rows g) (Grid.n_cols g) (alive_at g)
                        (Cell.i c, Cell.j c)))
  | None => false
  end.

(** The grid with the alive flag of the cell at an index pair inverted and
    nothing else changed. *)
Definition toggled (g : Grid.t) (p : Z * Z) : Grid.t :=
  Grid.set_store (alter Cell.toggle (ref_at g p) (Grid.store g)) g.

(** A grid whose picture fits in the 32-bit coordinates of pygame: every
    rectangle [Cell(i, j, cell_size)] builds for it is held as it is. *)
Definition fits_display (n_rows n_cols cell_size : Z) : Prop :=
  0 ≤ cell_size < 2 ^ 31 ∧
  n_rows * cell_size < 2 ^ 31 ∧ n_cols * cell_size < 2 ^ 31.

(** The exception of [toggle(i, j)] on indices the array does not accept:
    that of the row index if the rows do not accept it, since [cells[i]] is
    evaluated first, and that of the column index otherwise. *)
Definition toggle_error (g : Grid.t) (i j : Z) : exn :=
  if decide (- Grid.n_rows g ≤ i < Grid.n_rows g)
  then Py.index_error j else Py.index_error i.

(** A computation on the grid that keeps the frame, whatever its outcome. *)
Definition preserves {A} (m : M Grid.t A) : Prop :=
  ∀ g, frame g (Py.state_of (m g)).

(** [g = Grid(5, 5, 10); g.toggle(2, 1); g.toggle(2, 2); g.toggle(2, 3)] *)
Definition blinker : Grid.t :=
  Py.state_of (Grid.toggle 2 3
    (Py.state_of (Grid.toggle 2 2
      (Py.state_of (Grid.toggle 2 1 (Grid.make 5 5 10)))))).

(** The same pattern on a grid of another cell size, entered in another
    order. *)
Definition blinker_small : Grid.t :=
  Py.state_of (Grid.toggle 2 1
    (Py.state_of (Grid.toggle 2 3
      (Py.state_of (Grid.toggle 2 2 (Grid.make 5 5 3)))))).

(** What [Game.__init__] establishes: the grid is well formed and shares
    the cell size, and the window is n_cols*cell_size wide and
    n_rows*cell_size high. *)
Record game_wf (self : Game.t) : Prop := {
  game_grid_wf : wf (Game.grid self);
  game_cell_size : Grid.cell_size (Game.grid self) = Game.cell_size self;
  game_width :
    Game.width self = Grid.n_cols (Game.grid self) * Game.cell_size self;
  game_height :
    Game.height self = Grid.n_rows (Game.grid self) * Game.cell_size self
}.

(** The left button held down at pixel (x, y). *)
Definition click (x y : Z) : pygame.mouse :=
  {| pygame.pressed := true; pygame.pos := (x, y) |}.

(** ** Observing the game *)

(** The Cell object at an index pair of the grid. *)
Definition cell_of (g : Grid.t) (p : Z * Z) : Cell.t :=
  default (Cell.__init__ 0 0 0 false) (cell_at g p.1 p.2).

(** What [Grid.draw] leaves on a surface for a grid of the given
    dimensions and alive cells: the horizontal lines, the vertical lines,
    one filled square per alive cell. *)
Definition grid_picture (n_rows n_cols cell_size : Z)
    (alive : list (Z * Z)) : pygame.Surface :=
  ((λ i, pygame.draw_line pygame.BLACK
           (0, i * cell_size) (n_cols * cell_size, i * cell_size))
     <$> Py.range 0 (n_rows + 1)) ++
  ((λ j, pygame.draw_line pygame.BLACK
           (j * cell_size, 0) (j * cell_size, n_rows * cell_size))
     <$> Py.range 0 (n_cols + 1)) ++
  ((λ p, pygame.draw_rect pygame.BLACK
           {| pygame.left := p.1 * cell_size; pygame.top := p.2 * cell_size;
              pygame.width := cell_size; pygame.height := cell_size |})
     <$> alive).

(** [k] synchronous generations of a board. *)
Definition generations (k : nat) (n_rows n_cols : Z)
    (b : Z * Z → bool) : Z * Z → bool :=
  Nat.iter k (life_step n_rows n_cols) b.

(** An event that neither quits nor pauses, with the button up. *)
Definition quiet (e : pygame.Event * pygame.mouse) : Prop :=
  e.1 ≠ pygame.QUIT ∧ e.1 ≠ pygame.KEYDOWN pygame.K_SPACE ∧
  pygame.pressed e.2 = false.

(** Whether a QUIT is among the events, and the parity of the presses of
    the space bar that come before it. *)
Definition quits (events : list (pygame.Event * pygame.mouse)) : bool :=
  bool_decide (Exists (λ e, e.1 = pygame.QUIT) events).

Fixpoint space_parity (events : list (pygame.Event * pygame.mouse)) : bool :=
  match events with
  | [] => false
  | (pygame.QUIT, _) :: _ => false
  | (pygame.KEYDOWN key, _) :: events =>
      xorb (bool_decide (key = pygame.K_SPACE)) (space_parity events)
  | (pygame.OTHER, _) :: events => space_parity events
  end.

(** Two states of one game whose grids differ at most in alive flags. *)
Record game_frame (self self' : Game.t) : Prop := {
  game_frame_grid : frame (Game.grid self) (Game.grid self');
  game_frame_cell_size : Game.cell_size self' = Game.cell_size self;
  game_frame_width : Game.width self' = Game.width self;
  game_frame_height : Game.height self' = Game.height self;
  game_frame_window : Game.window_size self' = Game.window_size self
}.

(** A 5 by 5 game in which the user has clicked the three cells of the
    blinker, the last click arriving with a press of the space bar. *)
Definition blinker_game : Game.t :=
  Py.state_of
    (Game.handle_events
       [(pygame.OTHER, {| pygame.pressed := true; pygame.pos := (25, 15) |});
        (pygame.OTHER, {| pygame.pressed := true; pygame.pos := (25, 25) |});
        (pygame.KEYDOWN 32,
           {| pygame.pressed := true; pygame.pos := (25, 35) |})]
       (Game.make 5 5 10)).

(** A computation on the game that keeps the frame, whatever its outcome. *)
Definition game_preserves {A} (m : M Game.t A) : Prop :=
  ∀ self, game_frame self (Py.state_of (m self)).

(** * Proofs *)

(** ** Running computations *)

Section monad.
Context {S : Type}.
Implicit Types s : S.

Lemma bind_run {A B} (m : M S A) (k : A → M S B) s :
  (m ≫= k) s = match m s with
               | Ok a s' => k a s'
               | Raise e s' => Raise e s'
               end.
Proof. reflexivity. Qed.

Lemma bind_ok {A B} (m : M S A) (k : A → M S B) s a s' :
  m s = Ok a s' → (m ≫= k) s = k a s'.
Proof. intros H. rewrite bind_run, H. reflexivity. Qed.

Lemma bind_raise {A B} (m : M S A) (k : A → M S B) s e s' :
  m s = Raise e s' → (m ≫= k) s = Raise e s'.
Proof. intros H. rewrite bind_run, H. reflexivity. Qed.

Lemma ret_run {A} (a : A) s : (mret a : M S A) s = Ok a s.
Proof. reflexivity. Qed.

Lemma gets_run {A} (f : S → A) s : Py.gets f s = Ok (f s) s.
Proof. reflexivity. Qed.

(** A traversal whose steps all leave the state alone returns the list of
    their values and leaves the state alone. *)
Lemma mapM_readonly {A B} (f : A → M S B) l ys s :
  Forall2 (λ x y, f x s = Ok y s) l ys → mapM f l s = Ok ys s.
Proof.
  induction 1 as [|x y l ys Hx _ IH]; [reflexivity|].
  cbn [mapM]. rewrite (bind_ok _ _ _ _ _ Hx), (bind_ok _ _ _ _ _ IH).
  reflexivity.
Qed.

Lemma filterM_readonly {A} (f : A → M S bool) (φ : A → bool) l s :
  (∀ x, x ∈ l → f x s = Ok (φ x) s) →
  filterM f l s = Ok (filter (λ x, φ x) l) s.
Proof.
  induction l as [|x l IH]; intros Hf; [reflexivity|].
  cbn [filterM]. rewrite (bind_ok _ _ _ _ _ (Hf x (list_elem_of_here _ _))).
  rewrite (bind_ok _ _ _ _ _ (IH (λ y Hy, Hf y (list_elem_of_further _ _ _ Hy)))).
  rewrite ret_run, filter_cons. by destruct (φ x).
Qed.

Lemma getitem_nonneg {A} (l : list A) k x s :
  0 ≤ k → l !! Z.to_nat k = Some x → Py.getitem l k s = Ok x s.
Proof.
  intros Hk Hl. unfold Py.getitem.
  pose proof (lookup_lt_Some _ _ _ Hl).
  destruct (decide (k < 0)); [lia|].
  rewrite decide_True by lia. by rewrite Hl.
Qed.

Lemma getitem_negative {A} (l : list A) k x s :
  k < 0 → 0 ≤ k + Z.of_nat (length l) →
  l !! Z.to_nat (k + Z.of_nat (length l)) = Some x →
  Py.getitem l k s = Ok x s.
Proof.
  intros Hk Hk' Hl. unfold Py.getitem.
  destruct (decide (k < 0)); [|lia].
  rewrite decide_True by lia. by rewrite Hl.
Qed.

Lemma getitem_out_of_range {A} (l : list A) k s :
  ¬ (- Z.of_nat (length l) ≤ k < Z.of_nat (length l)) →
  Py.getitem l k s = @Raise S A (Py.index_error k) s.
Proof.
  intros Hk. unfold Py.getitem.
  destruct (decide (k < 0)); by rewrite decide_False by lia.
Qed.

End monad.

Section monad_map.
Context {S : Type}.

Lemma mapM_readonly_fmap {A B} (f : A → M S B) (φ : A → B) l (s : S) :
  (∀ x, x ∈ l → f x s = Ok (φ x) s) → mapM f l s = Ok (φ <$> l) s.
Proof.
  intros Hf. apply mapM_readonly, Forall2_fmap_r, Forall_Forall2_diag.
  apply Forall_forall. intros x Hx. by apply Hf.
Qed.

Lemma sum_flags (l : list bool) :
  Py.sum l = Z.of_nat (length (filter Is_true l)).
Proof.
  unfold Py.sum.
  enough (∀ acc, foldl (λ acc b, acc + Z.b2z b) acc l
                 = acc + Z.of_nat (length (filter Is_true l))) as H
    by (rewrite H; lia).
  induction l as [|b l IH]; intros acc; cbn [foldl]; [cbn; lia|].
  rewrite IH, filter_cons.
  destruct b; cbn; case_decide; try done; cbn [length]; lia.
Qed.

Lemma filter_fmap_length {A} (f : A → bool) (l : list A) :
  length (filter Is_true (f <$> l)) = length (filter (λ x, f x) l).
Proof.
  induction l as [|x l IH]; [done|].
  rewrite fmap_cons, !filter_cons.
  destruct (f x); cbn; repeat case_decide; try done; cbn; by rewrite IH.
Qed.
End monad_map.

(** ** Ranges and the neighbourhood *)

Section neighbourhood.

Lemma elem_of_range a b k : k ∈ Py.range a b ↔ a ≤ k < b.
Proof. unfold Py.range. rewrite elem_of_seqZ. lia. Qed.

Lemma NoDup_range a b : NoDup (Py.range a b).
Proof. apply NoDup_seqZ. Qed.

Lemma length_range a b : length (Py.range a b) = Z.to_nat (b - a).
Proof. apply length_seqZ. Qed.

Lemma lookup_range a b (k : nat) :
  Z.of_nat k < b - a → Py.range a b !! k = Some (a + Z.of_nat k).
Proof. apply lookup_seqZ_lt. Qed.

(** The clipped range of [neighbors] is the window [i-1, i, i+1] cut to
    the axis. *)
Lemma range_clipped i n :
  0 ≤ i < n →
  Py.range (Z.max (i - 1) 0) (Z.min (i + 2) n) =
  filter (λ k, 0 ≤ k < n) [i + -1; i + 0; i + 1].
Proof.
  intros Hi. unfold Py.range.
  rewrite !filter_cons, filter_nil.
  destruct (decide (0 ≤ i + -1 < n)), (decide (0 ≤ i + 1 < n));
    rewrite (decide_True (P := 0 ≤ i + 0 < n)) by lia.
  - replace (Z.min (i + 2) n - Z.max (i - 1) 0) with 3 by lia.
    replace (Z.max (i - 1) 0) with (i + -1) by lia.
    rewrite !seqZ_cons, seqZ_nil by lia. repeat f_equal; lia.
  - replace (Z.min (i + 2) n - Z.max (i - 1) 0) with 2 by lia.
    replace (Z.max (i - 1) 0) with (i + -1) by lia.
    rewrite !seqZ_cons, seqZ_nil by lia. repeat f_equal; lia.
  - replace (Z.min (i + 2) n - Z.max (i - 1) 0) with 2 by lia.
    replace (Z.max (i - 1) 0) with (i + 0) by lia.
    rewrite !seqZ_cons, seqZ_nil by lia. repeat f_equal; lia.
  - replace (Z.min (i + 2) n - Z.max (i - 1) 0) with 1 by lia.
    replace (Z.max (i - 1) 0) with (i + 0) by lia.
    rewrite !seqZ_cons, seqZ_nil by lia. repeat f_equal; lia.
Qed.

Lemma elem_of_neighbor_indices ci cj n_rows n_cols i j :
  (i, j) ∈ Grid.neighbor_indices ci cj n_rows n_cols ↔
  Z.max (ci - 1) 0 ≤ i < Z.min (ci + 2) n_rows ∧
  Z.max (cj - 1) 0 ≤ j < Z.min (cj + 2) n_cols ∧
  ¬ (i = ci ∧ j = cj).
Proof.
  unfold Grid.neighbor_indices. rewrite list_elem_of_bind. split.
  - intros (i' & Hj & Hi'). apply list_elem_of_bind in Hj as (j' & Hp & Hj').
    apply elem_of_range in Hi', Hj'.
    destruct (negb _) eqn:Hc; [|by apply not_elem_of_nil in Hp].
    apply list_elem_of_singleton in Hp. simplify_eq.
    apply negb_true_iff, andb_false_iff in Hc.
    rewrite !bool_decide_eq_false in Hc. tauto.
  - intros (Hi & Hj & Hne). exists i. rewrite elem_of_range. split; [|done].
    apply list_elem_of_bind. exists j. rewrite elem_of_range. split; [|done].
    rewrite (proj2 (negb_true_iff _)); [apply list_elem_of_singleton; done|].
    apply andb_false_iff. rewrite !bool_decide_eq_false.
    destruct (decide (i = ci)); [right|left]; tauto.
Qed.

(** The comprehension of [neighbors] visits the Moore neighbourhood cut to
    the board, in the order of the eight offsets. *)
Lemma neighbor_indices_moore n_rows n_cols i j :
  in_grid n_rows n_cols (i, j) →
  Grid.neighbor_indices i j n_rows n_cols = moore n_rows n_cols (i, j).
Proof.
  intros [Hi Hj]. cbn in Hi, Hj.
  unfold Grid.neighbor_indices, moore, offsets8.
  rewrite !range_clipped by done.
  cbn [fmap list_fmap fst snd].
  destruct (decide (0 ≤ i + -1 < n_rows)), (decide (0 ≤ i + 1 < n_rows)),
    (decide (0 ≤ j + -1 < n_cols)), (decide (0 ≤ j + 1 < n_cols));
    repeat first
      [ rewrite filter_cons_True by (unfold in_grid; cbn [fst snd]; lia)
      | rewrite filter_cons_False by (unfold in_grid; cbn [fst snd]; lia) ];
    rewrite !filter_nil;
    cbn [mbind list_bind fmap list_fmap app mjoin list_join];
    repeat first
      [ rewrite bool_decide_eq_true_2 by lia
      | rewrite bool_decide_eq_false_2 by lia ];
    reflexivity.
Qed.

End neighbourhood.

Lemma filter_ext_in {A} (P1 P2 : A → Prop)
    `{!∀ x, Decision (P1 x), !∀ x, Decision (P2 x)} (l : list A) :
  (∀ x, x ∈ l → P1 x ↔ P2 x) → filter P1 l = filter P2 l.
Proof.
  induction l as [|a l IH]; intros HP; [done|].
  assert (filter P1 l = filter P2 l) as Hl
    by (apply IH; intros x Hx; apply HP; by right).
  pose proof (HP a (list_elem_of_here _ _)) as Ha.
  destruct (decide (P1 a)).
  - rewrite !filter_cons_True by tauto. by rewrite Hl.
  - rewrite !filter_cons_False by tauto. done.
Qed.

(** ** Well-formed grids *)

Ltac run_gets := rewrite (bind_ok (Py.gets _) _ _ _ _ (gets_run _ _)).

Section grid.
Implicit Types (g : Grid.t) (l : ref) (p : Z * Z).

Lemma loc_at_lookup g i j l :
  loc_at g i j = Some l ↔
  0 ≤ i ∧ 0 ≤ j ∧
  ∃ row, Grid.cells g !! Z.to_nat i = Some row ∧ row !! Z.to_nat j = Some l.
Proof.
  unfold loc_at. case_decide as Hij.
  - rewrite bind_Some. tauto.
  - split; [done|]. intros (? & ? & _). tauto.
Qed.

Lemma wf_loc_at g p :
  wf g → in_grid (Grid.n_rows g) (Grid.n_cols g) p →
  is_Some (loc_at g p.1 p.2).
Proof.
  intros Hwf [Hi Hj].
  destruct (lookup_lt_is_Some_2 (Grid.cells g) (Z.to_nat p.1)) as [row Hrow].
  { rewrite (wf_rows g Hwf). lia. }
  destruct (lookup_lt_is_Some_2 row (Z.to_nat p.2)) as [l Hl].
  { rewrite (wf_cols g Hwf row) by (by eapply list_elem_of_lookup_2). lia. }
  exists l. apply loc_at_lookup. split_and!; [lia..|]. eauto.
Qed.

Lemma wf_loc_in_grid g i j l :
  wf g → loc_at g i j = Some l →
  in_grid (Grid.n_rows g) (Grid.n_cols g) (i, j).
Proof.
  intros Hwf (Hi & Hj & row & Hrow & Hl)%loc_at_lookup.
  pose proof (lookup_lt_Some _ _ _ Hrow) as Hlt.
  pose proof (lookup_lt_Some _ _ _ Hl) as Hlt'.
  rewrite (wf_rows g Hwf) in Hlt.
  rewrite (wf_cols g Hwf row) in Hlt' by (by eapply list_elem_of_lookup_2).
  split; cbn; lia.
Qed.

Lemma wf_loc_cell g i j l :
  wf g → loc_at g i j = Some l →
  ∃ c, Grid.store g !! l = Some c ∧ Cell.i c = i ∧ Cell.j c = j ∧
       Cell.rect c = Cell.rect (Cell.__init__ i j (Grid.cell_size g) false).
Proof.
  intros Hwf (Hi & Hj & row & Hrow & Hl)%loc_at_lookup.
  destruct (wf_cell g Hwf _ _ _ _ Hrow Hl) as (c & Hc & Hci & Hcj & Hr).
  rewrite !Z2Nat.id in * by done. eauto.
Qed.

(** A reference sits at one place of the array only. *)
Lemma wf_loc_inj g i j i' j' l :
  wf g → loc_at g i j = Some l → loc_at g i' j' = Some l →
  i = i' ∧ j = j'.
Proof.
  intros Hwf H1 H2.
  destruct (wf_loc_cell _ _ _ _ Hwf H1) as (c & Hc & <- & <- & _).
  destruct (wf_loc_cell _ _ _ _ Hwf H2) as (c' & Hc' & <- & <- & _).
  by simplify_eq.
Qed.

Lemma ref_at_loc g p l : loc_at g p.1 p.2 = Some l → ref_at g p = l.
Proof. unfold ref_at. by intros ->. Qed.

Lemma alive_at_loc g p l :
  loc_at g p.1 p.2 = Some l →
  alive_at g p = from_option Cell.alive false (Grid.store g !! l).
Proof. unfold alive_at, cell_at. by intros ->. Qed.

Lemma elem_of_flatten g l :
  l ∈ mjoin (Grid.cells g) ↔ ∃ i j, loc_at g i j = Some l.
Proof.
  rewrite list_elem_of_join. split.
  - intros (row & Hl & Hrow).
    apply list_elem_of_lookup in Hl as [b Hl].
    apply list_elem_of_lookup in Hrow as [a Hrow].
    exists (Z.of_nat a), (Z.of_nat b). apply loc_at_lookup.
    rewrite !Nat2Z.id. split_and!; [lia..|]. eauto.
  - intros (i & j & (_ & _ & row & Hrow & Hl)%loc_at_lookup).
    exists row. eauto using list_elem_of_lookup_2.
Qed.

Lemma deref_run g l c :
  Grid.store g !! l = Some c → Grid.deref l g = Ok c g.
Proof. unfold Grid.deref. by intros ->. Qed.

Lemma getitem2_run g i j l :
  loc_at g i j = Some l →
  (row ← Py.getitem (Grid.cells g) i; Py.getitem row j) g = Ok l g.
Proof.
  intros (Hi & Hj & row & Hrow & Hl)%loc_at_lookup.
  rewrite (bind_ok _ _ _ _ _ (getitem_nonneg _ _ _ _ Hi Hrow)).
  by apply getitem_nonneg.
Qed.

Lemma neighbors_run g i j l :
  wf g → loc_at g i j = Some l →
  Grid.neighbors l g =
  Ok (ref_at g <$> Grid.neighbor_indices i j (Grid.n_rows g) (Grid.n_cols g)) g.
Proof.
  intros Hwf Hl.
  destruct (wf_loc_cell _ _ _ _ Hwf Hl) as (c & Hc & Hci & Hcj & _).
  unfold Grid.neighbors.
  rewrite (bind_ok _ _ _ _ _ (deref_run _ _ _ Hc)).
  do 3 run_gets. rewrite Hci, Hcj.
  apply mapM_readonly_fmap. intros [i' j'] Hp.
  apply elem_of_neighbor_indices in Hp as (Hi' & Hj' & _).
  destruct (wf_loc_at g (i', j') Hwf) as [l' Hl'].
  { split; cbn; lia. }
  rewrite (ref_at_loc _ _ _ Hl'). by apply getitem2_run.
Qed.

Lemma count_alive_neighbors_run g i j l :
  wf g → loc_at g i j = Some l →
  Grid.count_alive_neighbors l g =
  Ok (live_count (Grid.n_rows g) (Grid.n_cols g) (alive_at g) (i, j)) g.
Proof.
  intros Hwf Hl.
  pose proof (wf_loc_in_grid _ _ _ _ Hwf Hl) as Hin.
  unfold Grid.count_alive_neighbors.
  rewrite (bind_ok _ _ _ _ _ (neighbors_run _ _ _ _ Hwf Hl)).
  rewrite (bind_ok _ _ _
    ((λ n, from_option Cell.alive false (Grid.store g !! n)) <$>
     (ref_at g <$> Grid.neighbor_indices i j (Grid.n_rows g) (Grid.n_cols g)))
    g).
  - rewrite ret_run. f_equal.
    rewrite sum_flags, <-list_fmap_compose, filter_fmap_length.
    unfold live_count. rewrite <-neighbor_indices_moore by done.
    do 2 f_equal. apply filter_ext_in. intros [i' j'] Hp.
    apply elem_of_neighbor_indices in Hp as (Hi' & Hj' & _).
    destruct (wf_loc_at g (i', j') Hwf) as [l' Hl']; [split; cbn; lia|].
    cbn [compose]. by rewrite (ref_at_loc _ _ _ Hl'), (alive_at_loc _ _ _ Hl').
  - apply mapM_readonly_fmap. intros n Hn.
    apply list_elem_of_fmap in Hn as ([i' j'] & -> & Hp).
    apply elem_of_neighbor_indices in Hp as (Hi' & Hj' & _).
    destruct (wf_loc_at g (i', j') Hwf) as [l' Hl']; [split; cbn; lia|].
    rewrite (ref_at_loc _ _ _ Hl').
    destruct (wf_loc_cell _ _ _ _ Hwf Hl') as (c & Hc & _).
    rewrite (bind_ok _ _ _ _ _ (deref_run _ _ _ Hc)). by rewrite Hc.
Qed.

End grid.

(** ** The rule and one generation *)

Lemma flip_B3S23 (a : bool) (n : Z) :
  xorb a (bool_decide (should_flip a n)) = B3S23 a n.
Proof.
  unfold should_flip, B3S23.
  destruct a; cbn; repeat case_bool_decide; try done; exfalso;
    intuition (discriminate || lia).
Qed.

Lemma NoDup_join_lookup {A} (ls : list (list A)) :
  (∀ a b a' b' r r' x,
      ls !! a = Some r → r !! b = Some x →
      ls !! a' = Some r' → r' !! b' = Some x → a = a' ∧ b = b') →
  NoDup (mjoin ls).
Proof.
  induction ls as [|r ls IH]; intros H; [constructor|].
  cbn [mjoin list_join]. apply NoDup_app. split_and!.
  - apply NoDup_alt. intros b b' x Hb Hb'.
    by destruct (H 0%nat b 0%nat b' r r x).
  - intros x [b Hb]%list_elem_of_lookup (r' & [b' Hb']%list_elem_of_lookup &
      [a' Ha']%list_elem_of_lookup)%list_elem_of_join.
    by destruct (H 0%nat b (S a') b' r r' x).
  - apply IH. intros a b a' b' r1 r2 x Ha Hb Ha' Hb'.
    destruct (H (S a) b (S a') b' r1 r2 x) as [? ?]; [done..|]. split; lia.
Qed.

Section generation.
Implicit Types (g : Grid.t) (l : ref) (p : Z * Z).

Lemma frame_refl g : frame g g.
Proof. split; eauto. Qed.

Lemma frame_trans g1 g2 g3 : frame g1 g2 → frame g2 g3 → frame g1 g3.
Proof.
  intros [] []. split; try congruence.
  intros l c Hc.
  destruct (frame_fields0 _ _ Hc) as (c2 & Hc2 & ? & ? & ?).
  destruct (frame_fields1 _ _ Hc2) as (c3 & Hc3 & ? & ? & ?).
  exists c3. split_and!; [done|congruence..].
Qed.

Lemma frame_wf g g' : wf g → frame g g' → wf g'.
Proof.
  intros [] []. split.
  - congruence.
  - intros row. rewrite frame_cells0, frame_n_cols0. auto.
  - intros a b row l. rewrite frame_cells0, frame_cell_size0.
    intros Hrow Hl.
    destruct (wf_cell0 _ _ _ _ Hrow Hl) as (c & Hc & ? & ? & ?).
    destruct (frame_fields0 _ _ Hc) as (c' & Hc' & ? & ? & ?).
    exists c'. split_and!; [done|congruence..].
Qed.

Lemma frame_loc_at g g' i j : frame g g' → loc_at g' i j = loc_at g i j.
Proof. intros []. unfold loc_at. by rewrite frame_cells0. Qed.

Lemma NoDup_flatten g : wf g → NoDup (mjoin (Grid.cells g)).
Proof.
  intros Hwf. apply NoDup_join_lookup.
  intros a b a' b' r r' x Ha Hb Ha' Hb'.
  destruct (wf_loc_inj g (Z.of_nat a) (Z.of_nat b) (Z.of_nat a') (Z.of_nat b') x)
    as [? ?]; [done|..|lia];
    apply loc_at_lookup; rewrite !Nat2Z.id; split_and!; eauto; lia.
Qed.

Lemma rule_run g i j l :
  wf g → loc_at g i j = Some l → Grid.rule l g = Ok (flip_of g l) g.
Proof.
  intros Hwf Hl.
  destruct (wf_loc_cell _ _ _ _ Hwf Hl) as (c & Hc & Hci & Hcj & _).
  pose proof (count_alive_neighbors_run _ _ _ _ Hwf Hl) as Hn.
  unfold Grid.rule, flip_of. rewrite Hc, Hci, Hcj.
  rewrite (bind_ok _ _ _ _ _ (deref_run _ _ _ Hc)).
  set (n := live_count _ _ _ _) in *.
  unfold should_flip. destruct (Cell.alive c) eqn:Ha.
  - rewrite (bind_ok _ _ _
      (negb (bool_decide (2 ≤ n) && bool_decide (n ≤ 3))) g)
      by (by rewrite (bind_ok _ _ _ _ _ Hn)).
    destruct (negb _) eqn:Hd.
    + rewrite ret_run. f_equal. symmetry. apply bool_decide_eq_true.
      apply negb_true_iff, andb_false_iff in Hd.
      rewrite !bool_decide_eq_false in Hd. left. split; [done|lia].
    + rewrite (bind_ok _ _ _ _ _ (deref_run _ _ _ Hc)), Ha. cbn [negb].
      rewrite ret_run. f_equal. symmetry. apply bool_decide_eq_false.
      apply negb_false_iff, andb_true_iff in Hd.
      rewrite !bool_decide_eq_true in Hd. intros [[_ ?]|[? _]]; [lia|done].
  - rewrite (bind_ok _ _ _ false g) by done.
    rewrite (bind_ok _ _ _ _ _ (deref_run _ _ _ Hc)), Ha. cbn [negb].
    rewrite (bind_ok _ _ _ _ _ Hn), ret_run. f_equal.
    apply bool_decide_ext. split; [by right|]. by intros [[? _]|[_ ?]].
Qed.

Lemma cell_toggle_run g l c :
  Grid.store g !! l = Some c →
  Grid.cell_toggle l g =
  Ok tt (Grid.set_store (<[l := Cell.toggle c]> (Grid.store g)) g).
Proof.
  intros Hc. unfold Grid.cell_toggle.
  by rewrite (bind_ok _ _ _ _ _ (deref_run _ _ _ Hc)).
Qed.

(** The loop of [update]: every collected object is toggled once, the
    others are left as they were. *)
Lemma toggles_run ls : ∀ g,
  NoDup ls → (∀ l, l ∈ ls → is_Some (Grid.store g !! l)) →
  ∃ g', forM_ ls Grid.cell_toggle g = Ok tt g' ∧
        Grid.n_rows g' = Grid.n_rows g ∧ Grid.n_cols g' = Grid.n_cols g ∧
        Grid.cell_size g' = Grid.cell_size g ∧ Grid.cells g' = Grid.cells g ∧
        ∀ l, Grid.store g' !! l =
             if decide (l ∈ ls) then Cell.toggle <$> Grid.store g !! l
             else Grid.store g !! l.
Proof.
  induction ls as [|x ls IH]; intros g Hnd Hin.
  - exists g. by split_and!.
  - apply NoDup_cons in Hnd as [Hx Hnd].
    destruct (Hin x (list_elem_of_here _ _)) as [c Hc].
    set (g1 := Grid.set_store (<[x := Cell.toggle c]> (Grid.store g)) g).
    destruct (IH g1 Hnd) as (g' & Hrun & ? & ? & ? & ? & Hst).
    { intros l Hl. apply lookup_lt_is_Some. cbn. rewrite length_insert.
      apply lookup_lt_is_Some, Hin. by right. }
    exists g'. split_and!; try done.
    + cbn [forM_]. by rewrite (bind_ok _ _ _ _ _ (cell_toggle_run _ _ _ Hc)).
    + intros l. rewrite Hst. cbn [g1 Grid.set_store Grid.store].
      destruct (decide (l = x)) as [->|Hne].
      * rewrite decide_False by done. rewrite decide_True by left.
        rewrite list_lookup_insert_eq by (by eapply lookup_lt_Some).
        by rewrite Hc.
      * rewrite list_lookup_insert_ne by done.
        destruct (decide (l ∈ ls)).
        -- by rewrite decide_True by (by right).
        -- rewrite decide_False; [done|]. by intros [?|?]%elem_of_cons.
Qed.

End generation.

(** ** The constructor builds a well-formed grid *)

Section constructor.
Implicit Types (g : Grid.t).

Lemma new_row_run i cs js : ∀ g,
  mapM (λ j, Grid.new_cell i j cs) js g =
  Ok (seq (length (Grid.store g)) (length js))
     (Grid.set_store
        (Grid.store g ++ ((λ j, Cell.__init__ i j cs false) <$> js)) g).
Proof.
  induction js as [|j js IH]; intros g.
  - cbn. rewrite app_nil_r. by destruct g.
  - cbn [mapM].
    rewrite (bind_ok _ _ _ (length (Grid.store g))
      (Grid.set_store (Grid.store g ++ [Cell.__init__ i j cs false]) g))
      by done.
    rewrite (bind_ok _ _ _ _ _ (IH _)), ret_run.
    cbn [Grid.set_store Grid.store length seq fmap list_fmap].
    rewrite length_app, Nat.add_1_r, <-app_assoc. done.
Qed.

Lemma init_rows_run cs js : ∀ rs g,
  ∃ rows h,
    mapM (λ i, mapM (λ j, Grid.new_cell i j cs) js) rs g =
      Ok rows (Grid.set_store (Grid.store g ++ h) g) ∧
    Forall2 (λ i row,
      Forall2 (λ j l, (Grid.store g ++ h) !! l =
                      Some (Cell.__init__ i j cs false)) js row) rs rows.
Proof.
  induction rs as [|i rs IH]; intros g.
  - exists [], []. split; [|constructor].
    cbn. rewrite app_nil_r. by destruct g.
  - set (new := (λ j, Cell.__init__ i j cs false) <$> js).
    set (g1 := Grid.set_store (Grid.store g ++ new) g).
    destruct (IH g1) as (rows & h & Hrun & Hrows).
    exists (seq (length (Grid.store g)) (length js) :: rows), (new ++ h).
    split.
    + cbn [mapM]. rewrite (bind_ok _ _ _ _ _ (new_row_run i cs js g)).
      fold new g1. rewrite (bind_ok _ _ _ _ _ Hrun), ret_run.
      cbn [g1 Grid.set_store Grid.store]. by rewrite <-app_assoc.
    + cbn [g1 Grid.set_store Grid.store] in Hrows.
      rewrite <-app_assoc in Hrows. constructor; [|done].
      apply Forall2_same_length_lookup. split; [by rewrite length_seq|].
      intros b j l Hj [-> Hb]%lookup_seq.
      rewrite lookup_app_r by lia.
      replace (length (Grid.store g) + b - length (Grid.store g))%nat
        with b by lia.
      apply lookup_app_l_Some. unfold new.
      by rewrite list_lookup_fmap, Hj.
Qed.

Lemma init_shape n_rows n_cols cs :
  ∃ rows h,
    Grid.__init__ n_rows n_cols cs Grid.blank =
      Ok tt {| Grid.n_rows := n_rows; Grid.n_cols := n_cols;
               Grid.cell_size := cs; Grid.cells := rows; Grid.store := h |} ∧
    Forall2 (λ i row,
      Forall2 (λ j l, h !! l = Some (Cell.__init__ i j cs false))
              (Py.range 0 n_cols) row) (Py.range 0 n_rows) rows.
Proof.
  set (g := Grid.set_dims n_rows n_cols cs Grid.blank).
  destruct (init_rows_run cs (Py.range 0 n_cols) (Py.range 0 n_rows) g)
    as (rows & h & Hrun & Hrows).
  exists rows, h. split; [|done].
  unfold Grid.__init__.
  rewrite (bind_ok _ _ _ tt g) by done.
  do 3 run_gets. cbn [g Grid.set_dims Grid.n_rows Grid.n_cols Grid.cell_size].
  fold g. by rewrite (bind_ok _ _ _ _ _ Hrun).
Qed.

Lemma init_run n_rows n_cols cs :
  Grid.__init__ n_rows n_cols cs Grid.blank =
  Ok tt (Grid.make n_rows n_cols cs).
Proof.
  unfold Grid.make.
  destruct (init_shape n_rows n_cols cs) as (rows & h & -> & _). done.
Qed.

Lemma make_wf n_rows n_cols cs : wf (Grid.make n_rows n_cols cs).
Proof.
  unfold Grid.make.
  destruct (init_shape n_rows n_cols cs) as (rows & h & -> & Hrows).
  split; cbn.
  - rewrite <-(Forall2_length _ _ _ Hrows), length_range. f_equal. lia.
  - intros row [a Ha]%list_elem_of_lookup.
    destruct (Forall2_lookup_r _ _ _ _ _ Hrows Ha) as (i & _ & Hrow).
    rewrite <-(Forall2_length _ _ _ Hrow), length_range. f_equal. lia.
  - intros a b row l Ha Hb.
    destruct (Forall2_lookup_r _ _ _ _ _ Hrows Ha) as (i & Hi & Hrow).
    destruct (Forall2_lookup_r _ _ _ _ _ Hrow Hb) as (j & Hj & Hl).
    apply lookup_seqZ in Hi as [-> _]. apply lookup_seqZ in Hj as [-> _].
    rewrite !Z.add_0_l in Hl. eauto.
Qed.

Lemma make_dims n_rows n_cols cs :
  Grid.n_rows (Grid.make n_rows n_cols cs) = n_rows ∧
  Grid.n_cols (Grid.make n_rows n_cols cs) = n_cols ∧
  Grid.cell_size (Grid.make n_rows n_cols cs) = cs.
Proof.
  unfold Grid.make.
  destruct (init_shape n_rows n_cols cs) as (rows & h & -> & _). done.
Qed.

End constructor.

(** ** [update]: collect against the old state, then toggle *)

Section update.
Implicit Types (g : Grid.t) (l : ref) (p : Z * Z).

Lemma wf_flatten_store g l :
  wf g → l ∈ mjoin (Grid.cells g) → is_Some (Grid.store g !! l).
Proof.
  intros Hwf (i & j & Hl)%elem_of_flatten.
  destruct (wf_loc_cell _ _ _ _ Hwf Hl) as (c & Hc & _). eauto.
Qed.

(** Phase one: every decision is taken on the state [update] was called
    on, and that state is handed on untouched. *)
Lemma collect_run g order :
  wf g → order ⊆ mjoin (Grid.cells g) →
  filterM Grid.rule order g = Ok (filter (λ l, flip_of g l) order) g.
Proof.
  intros Hwf Hsub. apply filterM_readonly. intros l Hl.
  apply Hsub, elem_of_flatten in Hl as (i & j & Hl). by eapply rule_run.
Qed.

Lemma update_in_run g order :
  wf g → NoDup order → order ⊆ mjoin (Grid.cells g) →
  ∃ g', Grid.update_in order g = Ok tt g' ∧
        forM_ (filter (λ l, flip_of g l) order) Grid.cell_toggle g = Ok tt g' ∧
        Grid.n_rows g' = Grid.n_rows g ∧ Grid.n_cols g' = Grid.n_cols g ∧
        Grid.cell_size g' = Grid.cell_size g ∧ Grid.cells g' = Grid.cells g ∧
        ∀ l, Grid.store g' !! l =
             if decide (l ∈ order ∧ flip_of g l)
             then Cell.toggle <$> Grid.store g !! l
             else Grid.store g !! l.
Proof.
  intros Hwf Hnd Hsub.
  destruct (toggles_run (filter (λ l, flip_of g l) order) g)
    as (g' & Hrun & ? & ? & ? & ? & Hst).
  { by apply NoDup_filter. }
  { intros l [_ Hl]%list_elem_of_filter. by apply wf_flatten_store, Hsub. }
  exists g'. split_and!; try done.
  - unfold Grid.update_in.
    by rewrite (bind_ok _ _ _ _ _ (collect_run _ _ Hwf Hsub)).
  - intros l. rewrite Hst. apply decide_ext.
    rewrite list_elem_of_filter. tauto.
Qed.

Lemma toggled_frame g g' (P : ref → Prop) `{!∀ l, Decision (P l)} :
  Grid.n_rows g' = Grid.n_rows g → Grid.n_cols g' = Grid.n_cols g →
  Grid.cell_size g' = Grid.cell_size g → Grid.cells g' = Grid.cells g →
  (∀ l, Grid.store g' !! l =
        if decide (P l) then Cell.toggle <$> Grid.store g !! l
        else Grid.store g !! l) →
  frame g g'.
Proof.
  intros ???? Hst. split; try done.
  - assert (∀ l, is_Some (Grid.store g' !! l) ↔ is_Some (Grid.store g !! l))
      as Hsome.
    { intros l. rewrite Hst. case_decide; [|done]. by rewrite fmap_is_Some. }
    setoid_rewrite lookup_lt_is_Some in Hsome.
    pose proof (Hsome (length (Grid.store g))).
    pose proof (Hsome (length (Grid.store g'))). lia.
  - intros l c Hc. rewrite Hst, Hc. case_decide; cbn; eauto.
Qed.

(** The board after the toggles is the synchronous step of the board
    before. *)
Lemma update_board g g' :
  wf g → Grid.cells g' = Grid.cells g →
  (∀ l, Grid.store g' !! l =
        if decide (l ∈ mjoin (Grid.cells g) ∧ flip_of g l)
        then Cell.toggle <$> Grid.store g !! l
        else Grid.store g !! l) →
  ∀ p, in_grid (Grid.n_rows g) (Grid.n_cols g) p →
       alive_at g' p = life_step (Grid.n_rows g) (Grid.n_cols g) (alive_at g) p.
Proof.
  intros Hwf Hcells Hst [i j] Hp.
  destruct (wf_loc_at g (i, j) Hwf Hp) as [l Hl]. cbn [fst snd] in Hl.
  assert (loc_at g' i j = Some l) as Hl'
    by (unfold loc_at in *; by rewrite Hcells).
  destruct (wf_loc_cell _ _ _ _ Hwf Hl) as (c & Hc & Hci & Hcj & _).
  rewrite (alive_at_loc g' (i, j) l Hl'), Hst.
  unfold life_step. rewrite (alive_at_loc g (i, j) l Hl), Hc. cbn.
  rewrite <-flip_B3S23.
  assert (flip_of g l =
          bool_decide (should_flip (Cell.alive c)
            (live_count (Grid.n_rows g) (Grid.n_cols g) (alive_at g) (i, j))))
    as Hflip by (unfold flip_of; by rewrite Hc, Hci, Hcj).
  rewrite <-Hflip.
  assert (l ∈ mjoin (Grid.cells g)) by (apply elem_of_flatten; eauto).
  destruct (flip_of g l) eqn:Hf.
  - rewrite decide_True by done. cbn. by destruct (Cell.alive c).
  - rewrite decide_False by (by intros [_ ?]). cbn.
    by destruct (Cell.alive c).
Qed.

Lemma update_run g :
  wf g →
  ∃ g', Grid.update g = Ok tt g' ∧ frame g g' ∧ wf g' ∧
        ∀ p, in_grid (Grid.n_rows g) (Grid.n_cols g) p →
             alive_at g' p =
             life_step (Grid.n_rows g) (Grid.n_cols g) (alive_at g) p.
Proof.
  intros Hwf.
  destruct (update_in_run g (mjoin (Grid.cells g)) Hwf)
    as (g' & Hrun & _ & ? & ? & ? & ? & Hst);
    [by apply NoDup_flatten|done|].
  assert (frame g g') as Hfr.
  { apply (toggled_frame g g'
      (λ l, l ∈ mjoin (Grid.cells g) ∧ flip_of g l)); done. }
  exists g'. split_and!; [|done|by eapply frame_wf|by apply update_board].
  unfold Grid.update. by run_gets.
Qed.

End update.

(** ** Every method keeps the frame *)

Section preservation.
Implicit Types (g : Grid.t) (l : ref).

Lemma preserves_ret {A} (a : A) : preserves (mret a).
Proof. intros g. apply frame_refl. Qed.

Lemma preserves_raise {A} e : preserves (@Py.raise Grid.t A e).
Proof. intros g. apply frame_refl. Qed.

Lemma preserves_gets {A} (f : Grid.t → A) : preserves (Py.gets f).
Proof. intros g. apply frame_refl. Qed.

Lemma preserves_bind {A B} (m : M Grid.t A) (k : A → M Grid.t B) :
  preserves m → (∀ a, preserves (k a)) → preserves (m ≫= k).
Proof.
  intros Hm Hk g. rewrite bind_run. specialize (Hm g).
  destruct (m g) as [a s|e s]; cbn in *; [|done].
  eapply frame_trans; [done|apply Hk].
Qed.

Lemma preserves_getitem {A} (xs : list A) k : preserves (Py.getitem xs k).
Proof.
  intros g. unfold Py.getitem.
  case_decide; [|apply frame_refl]. destruct (_ !! _); apply frame_refl.
Qed.

Lemma preserves_deref l : preserves (Grid.deref l).
Proof. intros g. unfold Grid.deref. destruct (_ !! _); apply frame_refl. Qed.

Lemma preserves_cell_toggle l : preserves (Grid.cell_toggle l).
Proof.
  intros g. unfold Grid.cell_toggle, Grid.deref. rewrite bind_run.
  destruct (Grid.store g !! l) as [c|] eqn:Hc; cbn; [|apply frame_refl].
  split; cbn; try done.
  - apply length_insert.
  - intros l' c' Hc'. destruct (decide (l = l')) as [->|Hne].
    + rewrite list_lookup_insert_eq by (by eapply lookup_lt_Some).
      simplify_eq. eauto.
    + rewrite list_lookup_insert_ne by done. eauto.
Qed.

Lemma preserves_mapM {A B} (f : A → M Grid.t B) xs :
  (∀ x, preserves (f x)) → preserves (mapM f xs).
Proof.
  intros Hf. induction xs as [|x xs IH]; [apply preserves_ret|].
  cbn [mapM]. apply preserves_bind; [done|]. intros y.
  apply preserves_bind; [done|]. intros ys. apply preserves_ret.
Qed.

Lemma preserves_filterM {A} (f : A → M Grid.t bool) xs :
  (∀ x, preserves (f x)) → preserves (filterM f xs).
Proof.
  intros Hf. induction xs as [|x xs IH]; [apply preserves_ret|].
  cbn [filterM]. apply preserves_bind; [done|]. intros b.
  apply preserves_bind; [done|]. intros ys. apply preserves_ret.
Qed.

Lemma preserves_forM_ {A} (f : A → M Grid.t unit) xs :
  (∀ x, preserves (f x)) → preserves (forM_ xs f).
Proof.
  intros Hf. induction xs as [|x xs IH]; [apply preserves_ret|].
  cbn [forM_]. by apply preserves_bind.
Qed.

Lemma preserves_neighbors l : preserves (Grid.neighbors l).
Proof.
  unfold Grid.neighbors.
  apply preserves_bind; [apply preserves_deref|]. intros c.
  do 3 (apply preserves_bind; [apply preserves_gets|]; intros ?).
  apply preserves_mapM. intros [i j].
  apply preserves_bind; [apply preserves_getitem|]. intros row.
  apply preserves_getitem.
Qed.

Lemma preserves_count_alive_neighbors l :
  preserves (Grid.count_alive_neighbors l).
Proof.
  unfold Grid.count_alive_neighbors.
  apply preserves_bind; [apply preserves_neighbors|]. intros ns.
  apply preserves_bind; [|intros; apply preserves_ret].
  apply preserves_mapM. intros n.
  apply preserves_bind; [apply preserves_deref|]. intros; apply preserves_ret.
Qed.

Lemma preserves_rule l : preserves (Grid.rule l).
Proof.
  unfold Grid.rule.
  apply preserves_bind; [apply preserves_deref|]. intros c.
  apply preserves_bind.
  { destruct (Cell.alive c); [|apply preserves_ret].
    apply preserves_bind; [apply preserves_count_alive_neighbors|].
    intros; apply preserves_ret. }
  intros [|]; [apply preserves_ret|].
  apply preserves_bind; [apply preserves_deref|]. intros c'.
  destruct (negb _); [|apply preserves_ret].
  apply preserves_bind; [apply preserves_count_alive_neighbors|].
  intros; apply preserves_ret.
Qed.

Lemma preserves_update_in order : preserves (Grid.update_in order).
Proof.
  unfold Grid.update_in. apply preserves_bind.
  - apply preserves_filterM, preserves_rule.
  - intros ls. apply preserves_forM_, preserves_cell_toggle.
Qed.

Lemma preserves_update : preserves Grid.update.
Proof.
  unfold Grid.update. apply preserves_bind; [apply preserves_gets|].
  intros cells. apply preserves_update_in.
Qed.

Lemma preserves_toggle i j : preserves (Grid.toggle i j).
Proof.
  unfold Grid.toggle. apply preserves_bind; [apply preserves_gets|].
  intros cells. apply preserves_bind; [apply preserves_getitem|].
  intros row. apply preserves_bind; [apply preserves_getitem|].
  intros cell. apply preserves_cell_toggle.
Qed.

Lemma toggle_wf g i j : wf g → wf (Py.state_of (Grid.toggle i j g)).
Proof. intros Hwf. eapply frame_wf; [done|apply preserves_toggle]. Qed.

End preservation.

(** ** [toggle]: what the indexing accepts *)

Section toggle.
Implicit Types (g : Grid.t) (l : ref) (p q : Z * Z).

Lemma getitem_valid {S A} (xs : list A) k x (s : S) :
  - Z.of_nat (length xs) ≤ k < Z.of_nat (length xs) →
  xs !! Z.to_nat (k `mod` Z.of_nat (length xs)) = Some x →
  Py.getitem xs k s = Ok x s.
Proof.
  intros Hk Hx. destruct (decide (k < 0)).
  - assert (k `mod` Z.of_nat (length xs) = k + Z.of_nat (length xs)) as Hm
      by (symmetry; apply (Z.mod_unique k _ (-1)); lia).
    rewrite Hm in Hx. apply getitem_negative; [lia..|done].
  - rewrite Z.mod_small in Hx by lia. apply getitem_nonneg; [lia|done].
Qed.

Lemma insert_alter_eq {A} (f : A → A) (xs : list A) k x :
  xs !! k = Some x → <[k := f x]> xs = alter f k xs.
Proof.
  intros Hx. apply list_eq. intros k'.
  rewrite list_lookup_alter. destruct (decide (k = k')) as [<-|].
  - rewrite list_lookup_insert_eq by (by eapply lookup_lt_Some).
    by rewrite Hx.
  - by rewrite list_lookup_insert_ne.
Qed.

Lemma toggle_run g i j :
  wf g →
  Grid.toggle i j g =
  if decide (- Grid.n_rows g ≤ i < Grid.n_rows g ∧
             - Grid.n_cols g ≤ j < Grid.n_cols g)
  then Ok tt (toggled g (i `mod` Grid.n_rows g, j `mod` Grid.n_cols g))
  else Raise (toggle_error g i j) g.
Proof.
  intros Hwf. unfold Grid.toggle, toggle_error. run_gets.
  pose proof (wf_rows g Hwf) as Hrows.
  destruct (decide (- Grid.n_rows g ≤ i < Grid.n_rows g)) as [Hi|Hi].
  - assert (Z.of_nat (length (Grid.cells g)) = Grid.n_rows g) as Hlen by lia.
    destruct (lookup_lt_is_Some_2 (Grid.cells g)
                (Z.to_nat (i `mod` Grid.n_rows g))) as [row Hrow].
    { pose proof (Z.mod_pos_bound i (Grid.n_rows g)). lia. }
    pose proof (wf_cols g Hwf row (list_elem_of_lookup_2 _ _ _ Hrow)) as Hcols.
    rewrite (bind_ok _ _ _ row g)
      by (apply getitem_valid; rewrite Hlen; done).
    destruct (decide (- Grid.n_cols g ≤ j < Grid.n_cols g)) as [Hj|Hj].
    + assert (Z.of_nat (length row) = Grid.n_cols g) as Hlen' by lia.
      destruct (lookup_lt_is_Some_2 row (Z.to_nat (j `mod` Grid.n_cols g)))
        as [l Hl].
      { pose proof (Z.mod_pos_bound j (Grid.n_cols g)). lia. }
      rewrite (bind_ok _ _ _ l g)
        by (apply getitem_valid; rewrite Hlen'; done).
      rewrite decide_True by done.
      assert (loc_at g (i `mod` Grid.n_rows g) (j `mod` Grid.n_cols g)
              = Some l) as Hloc.
      { apply loc_at_lookup.
        pose proof (Z.mod_pos_bound i (Grid.n_rows g)).
        pose proof (Z.mod_pos_bound j (Grid.n_cols g)).
        split_and!; [lia..|]. eauto. }
      destruct (wf_loc_cell _ _ _ _ Hwf Hloc) as (c & Hc & _).
      rewrite (cell_toggle_run _ _ _ Hc). unfold toggled.
      by rewrite (ref_at_loc g (_, _) l Hloc), (insert_alter_eq _ _ _ _ Hc).
    + rewrite decide_False by tauto.
      apply bind_raise, getitem_out_of_range. lia.
  - rewrite decide_False by tauto.
    apply bind_raise, getitem_out_of_range. lia.
Qed.

Lemma index_error_cases k :
  (2 ^ 63 ≤ k < 2 ^ 64 ∧ Py.index_error k = OverflowError) ∨
  (¬ 2 ^ 63 ≤ k < 2 ^ 64 ∧ Py.index_error k = IndexError).
Proof. unfold Py.index_error. case_decide; [left|right]; done. Qed.

Lemma toggled_spec g p :
  wf g → in_grid (Grid.n_rows g) (Grid.n_cols g) p →
  frame g (toggled g p) ∧
  ∀ q, in_grid (Grid.n_rows g) (Grid.n_cols g) q →
       alive_at (toggled g p) q =
       if decide (q = p) then negb (alive_at g q) else alive_at g q.
Proof.
  intros Hwf Hp.
  destruct (wf_loc_at g p Hwf Hp) as [l Hl].
  assert (frame g (toggled g p)) as Hfr.
  { apply (toggled_frame g _ (λ l', ref_at g p = l')); try done.
    intros l'. cbn. rewrite list_lookup_alter.
    case_decide; by simplify_eq. }
  split; [done|]. intros q Hq.
  destruct (wf_loc_at g q Hwf Hq) as [l' Hl'].
  pose proof Hl' as Hl''. rewrite <-(frame_loc_at _ _ _ _ Hfr) in Hl''.
  rewrite (alive_at_loc _ q l' Hl''), (alive_at_loc _ q l' Hl').
  cbn. rewrite list_lookup_alter, (ref_at_loc _ _ _ Hl).
  destruct (wf_loc_cell _ _ _ _ Hwf Hl') as (c & Hc & _).
  destruct (decide (q = p)) as [->|Hne].
  - assert (l' = l) as -> by congruence.
    rewrite decide_True by done. by rewrite Hc.
  - rewrite decide_False; [done|]. intros <-.
    destruct (wf_loc_inj _ _ _ _ _ _ Hwf Hl Hl'). destruct p, q.
    cbn in *. congruence.
Qed.

End toggle.

(** * The claims *)

Lemma blinker_wf : wf blinker.
Proof. unfold blinker. do 3 apply toggle_wf. apply make_wf. Qed.

Lemma life_step_ext n_rows n_cols (b1 b2 : Z * Z → bool) p :
  (∀ q, in_grid n_rows n_cols q → b1 q = b2 q) →
  in_grid n_rows n_cols p →
  life_step n_rows n_cols b1 p = life_step n_rows n_cols b2 p.
Proof.
  intros Hb Hp. unfold life_step, live_count. rewrite (Hb p Hp).
  do 3 f_equal. apply filter_ext_in.
  intros q [Hq _]%list_elem_of_filter. by rewrite (Hb q Hq).
Qed.

(** C1. For every grid state, [update] advances the grid by exactly one
    synchronous generation: the flip decision of every cell is evaluated by
    [rule] against the state [update] was called on, which that pass hands
    on unchanged; only then are the collected cells toggled; and the board
    that results is the standard double-buffered Game of Life step of the
    board before. *)
Theorem update_is_synchronous_generation (g : Grid.t) :
  wf g →
  ∃ cells_to_toggle g',
    filterM Grid.rule (mjoin (Grid.cells g)) g = Ok cells_to_toggle g ∧
    forM_ cells_to_toggle Grid.cell_toggle g = Ok tt g' ∧
    Grid.update g = Ok tt g' ∧
    ∀ p, in_grid (Grid.n_rows g) (Grid.n_cols g) p →
         alive_at g' p =
         life_step (Grid.n_rows g) (Grid.n_cols g) (alive_at g) p.
Proof.
  intros Hwf.
  destruct (update_in_run g (mjoin (Grid.cells g)) Hwf)
    as (g' & Hrun & Hloop & _ & _ & _ & Hcells & Hst);
    [by apply NoDup_flatten|done|].
  exists (filter (λ l, flip_of g l) (mjoin (Grid.cells g))), g'.
  split_and!.
  - by apply collect_run.
  - done.
  - unfold Grid.update. by run_gets.
  - by apply update_board.
Qed.

Lemma update_is_synchronous_generation_witness :
  ∃ cells_to_toggle g',
    filterM Grid.rule (mjoin (Grid.cells blinker)) blinker
      = Ok cells_to_toggle blinker ∧
    forM_ cells_to_toggle Grid.cell_toggle blinker = Ok tt g' ∧
    Grid.update blinker = Ok tt g' ∧
    ∀ p, in_grid (Grid.n_rows blinker) (Grid.n_cols blinker) p →
         alive_at g' p =
         life_step (Grid.n_rows blinker) (Grid.n_cols blinker)
           (alive_at blinker) p.
Proof. apply (update_is_synchronous_generation blinker), blinker_wf. Defined.

(** C2. For every cell of a grid, [rule] returns true exactly when the cell
    is alive and its alive-neighbour count is outside [2,3], or the cell is
    dead and its alive-neighbour count is 3; otherwise it returns false.
    The count is the one [count_alive_neighbors] returns, and it is the
    number of cells, among the eight around the cell, that lie in the grid
    and are alive. *)
Theorem rule_flips_iff (g : Grid.t) (i j : Z) (cell : ref) (c : Cell.t) :
  wf g → loc_at g i j = Some cell → Grid.store g !! cell = Some c →
  ∃ n b,
    Grid.count_alive_neighbors cell g = Ok n g ∧
    n = live_count (Grid.n_rows g) (Grid.n_cols g) (alive_at g) (i, j) ∧
    Grid.rule cell g = Ok b g ∧
    (b = true ↔ (Cell.alive c = true ∧ ¬ (2 ≤ n ≤ 3)) ∨
                (Cell.alive c = false ∧ n = 3)).
Proof.
  intros Hwf Hl Hc.
  destruct (wf_loc_cell _ _ _ _ Hwf Hl) as (c' & Hc' & Hci & Hcj & _).
  assert (c' = c) as -> by congruence.
  exists (live_count (Grid.n_rows g) (Grid.n_cols g) (alive_at g) (i, j)),
         (flip_of g cell).
  split_and!.
  - by apply count_alive_neighbors_run.
  - done.
  - by eapply rule_run.
  - unfold flip_of. rewrite Hc, Hci, Hcj. apply bool_decide_eq_true.
Qed.

Lemma rule_flips_iff_witness :
  ∃ n b,
    Grid.count_alive_neighbors 12%nat blinker = Ok n blinker ∧
    n = live_count (Grid.n_rows blinker) (Grid.n_cols blinker)
          (alive_at blinker) (2, 2) ∧
    Grid.rule 12%nat blinker = Ok b blinker ∧
    (b = true ↔
       (Cell.alive (Cell.__init__ 2 2 10 true) = true ∧ ¬ (2 ≤ n ≤ 3)) ∨
       (Cell.alive (Cell.__init__ 2 2 10 true) = false ∧ n = 3)).
Proof.
  apply (rule_flips_iff blinker 2 2 12%nat (Cell.__init__ 2 2 10 true)).
  - apply blinker_wf.
  - vm_compute. reflexivity.
  - vm_compute. reflexivity.
Defined.

Lemma NoDup_moore n_rows n_cols p : NoDup (moore n_rows n_cols p).
Proof.
  unfold moore. apply NoDup_filter, NoDup_fmap_2_strong.
  - intros [a b] [a' b'] _ _ [= ? ?]. f_equal; lia.
  - by apply (bool_decide_unpack _).
Qed.

(** The number of index pairs [neighbors] visits, by where the cell lies. *)
Lemma length_moore n_rows n_cols i j :
  2 ≤ n_rows → 2 ≤ n_cols → in_grid n_rows n_cols (i, j) →
  (0 < i < n_rows - 1 ∧ 0 < j < n_cols - 1 →
     length (moore n_rows n_cols (i, j)) = 8%nat) ∧
  ((i = 0 ∨ i = n_rows - 1) ∧ 0 < j < n_cols - 1 ∨
   0 < i < n_rows - 1 ∧ (j = 0 ∨ j = n_cols - 1) →
     length (moore n_rows n_cols (i, j)) = 5%nat) ∧
  ((i = 0 ∨ i = n_rows - 1) ∧ (j = 0 ∨ j = n_cols - 1) →
     length (moore n_rows n_cols (i, j)) = 3%nat).
Proof.
  intros Hn Hm [Hi Hj]. cbn [fst snd] in Hi, Hj.
  unfold moore, offsets8. cbn [fmap list_fmap fst snd].
  destruct (decide (0 ≤ i + -1 < n_rows)), (decide (0 ≤ i + 1 < n_rows)),
    (decide (0 ≤ j + -1 < n_cols)), (decide (0 ≤ j + 1 < n_cols));
    repeat first
      [ rewrite filter_cons_True by (unfold in_grid; cbn [fst snd]; lia)
      | rewrite filter_cons_False by (unfold in_grid; cbn [fst snd]; lia) ];
    rewrite filter_nil; cbn [length];
    (split_and!; intros ?; first [reflexivity | lia]).
Qed.

(** C3. On a grid with at least two rows and two columns, [neighbors] of
    the cell at an in-bounds index pair (i, j) returns exactly the cells
    whose indices differ from (i, j) by at most 1 in each dimension, clipped
    at the grid boundary with no wraparound, each once and never the cell
    itself: 8 cells for an interior cell, 5 for an edge cell that is not a
    corner, 3 for a corner. *)
Theorem neighbors_clipped_moore (g : Grid.t) (i j : Z) (cell : ref) :
  wf g → 2 ≤ Grid.n_rows g → 2 ≤ Grid.n_cols g →
  loc_at g i j = Some cell →
  ∃ ns,
    Grid.neighbors cell g = Ok ns g ∧
    NoDup ns ∧ (cell ∉ ns) ∧
    (∀ l, l ∈ ns ↔
          ∃ i' j', loc_at g i' j' = Some l ∧
                   in_grid (Grid.n_rows g) (Grid.n_cols g) (i', j') ∧
                   Z.abs (i' - i) ≤ 1 ∧ Z.abs (j' - j) ≤ 1 ∧
                   (i', j') ≠ (i, j)) ∧
    (0 < i < Grid.n_rows g - 1 ∧ 0 < j < Grid.n_cols g - 1 →
       length ns = 8%nat) ∧
    ((i = 0 ∨ i = Grid.n_rows g - 1) ∧ 0 < j < Grid.n_cols g - 1 ∨
     0 < i < Grid.n_rows g - 1 ∧ (j = 0 ∨ j = Grid.n_cols g - 1) →
       length ns = 5%nat) ∧
    ((i = 0 ∨ i = Grid.n_rows g - 1) ∧ (j = 0 ∨ j = Grid.n_cols g - 1) →
       length ns = 3%nat).
Proof.
  intros Hwf Hn Hm Hl.
  pose proof (wf_loc_in_grid _ _ _ _ Hwf Hl) as Hin.
  set (idx := Grid.neighbor_indices i j (Grid.n_rows g) (Grid.n_cols g)).
  assert (∀ p, p ∈ idx →
               in_grid (Grid.n_rows g) (Grid.n_cols g) p ∧
               loc_at g p.1 p.2 = Some (ref_at g p)) as Hidx.
  { intros [i' j'] (Hi' & Hj' & _)%elem_of_neighbor_indices.
    assert (in_grid (Grid.n_rows g) (Grid.n_cols g) (i', j')) as Hp
      by (split; cbn; lia).
    destruct (wf_loc_at g (i', j') Hwf Hp) as [l' Hl'].
    by rewrite (ref_at_loc _ _ _ Hl'). }
  assert (∀ l, l ∈ ref_at g <$> idx ↔
          ∃ i' j', loc_at g i' j' = Some l ∧
                   in_grid (Grid.n_rows g) (Grid.n_cols g) (i', j') ∧
                   Z.abs (i' - i) ≤ 1 ∧ Z.abs (j' - j) ≤ 1 ∧
                   (i', j') ≠ (i, j)) as Hmem.
  { intros l. rewrite list_elem_of_fmap. split.
    - intros ([i' j'] & -> & Hp). destruct (Hidx _ Hp) as [Hg Hloc].
      apply elem_of_neighbor_indices in Hp as (Hi' & Hj' & Hne).
      exists i', j'. split_and!; [done|done|lia|lia|]. intros [= -> ->]. tauto.
    - intros (i' & j' & Hl' & [Hi' Hj'] & Hdi & Hdj & Hne).
      cbn [fst snd] in Hi', Hj'. destruct Hin as [Hi Hj]. cbn [fst snd] in Hi, Hj.
      exists (i', j'). split; [by rewrite (ref_at_loc g (i', j') l Hl')|].
      apply elem_of_neighbor_indices. split_and!; [lia..|].
      intros [-> ->]. done. }
  exists (ref_at g <$> idx). split_and!.
  - by apply neighbors_run.
  - apply NoDup_fmap_2_strong.
    + intros [a b] [a' b'] Hp Hp' Heq.
      destruct (Hidx _ Hp) as [_ Hloc], (Hidx _ Hp') as [_ Hloc'].
      rewrite Heq in Hloc.
      destruct (wf_loc_inj _ _ _ _ _ _ Hwf Hloc Hloc'). cbn in *. congruence.
    + unfold idx. rewrite neighbor_indices_moore by done. apply NoDup_moore.
  - intros (i' & j' & Hl' & _ & _ & _ & Hne)%Hmem.
    destruct (wf_loc_inj _ _ _ _ _ _ Hwf Hl Hl'). congruence.
  - done.
  - rewrite length_fmap. unfold idx. rewrite neighbor_indices_moore by done.
    by apply length_moore.
  - rewrite length_fmap. unfold idx. rewrite neighbor_indices_moore by done.
    by apply length_moore.
  - rewrite length_fmap. unfold idx. rewrite neighbor_indices_moore by done.
    by apply length_moore.
Qed.

Lemma neighbors_clipped_moore_witness :
  ∃ ns,
    Grid.neighbors 12%nat blinker = Ok ns blinker ∧
    NoDup ns ∧ (12%nat ∉ ns) ∧
    (∀ l, l ∈ ns ↔
          ∃ i' j', loc_at blinker i' j' = Some l ∧
                   in_grid (Grid.n_rows blinker) (Grid.n_cols blinker) (i', j') ∧
                   Z.abs (i' - 2) ≤ 1 ∧ Z.abs (j' - 2) ≤ 1 ∧
                   (i', j') ≠ (2, 2)) ∧
    (0 < 2 < Grid.n_rows blinker - 1 ∧ 0 < 2 < Grid.n_cols blinker - 1 →
       length ns = 8%nat) ∧
    ((2 = 0 ∨ 2 = Grid.n_rows blinker - 1) ∧ 0 < 2 < Grid.n_cols blinker - 1 ∨
     0 < 2 < Grid.n_rows blinker - 1 ∧ (2 = 0 ∨ 2 = Grid.n_cols blinker - 1) →
       length ns = 5%nat) ∧
    ((2 = 0 ∨ 2 = Grid.n_rows blinker - 1) ∧
     (2 = 0 ∨ 2 = Grid.n_cols blinker - 1) →
       length ns = 3%nat).
Proof.
  apply (neighbors_clipped_moore blinker 2 2 12%nat).
  - apply blinker_wf.
  - vm_compute. discriminate.
  - vm_compute. discriminate.
  - vm_compute. reflexivity.
Defined.

(** C4, as the code has it.  [toggle] has no check of its own; it is
    bounds-checked by the indexing of the array only.  For in-bounds
    indices, (0, 0) and (n_rows-1, n_cols-1) among them, it flips exactly
    the addressed cell.  For a row index outside [-n_rows, n_rows) or a
    column index outside [-n_cols, n_cols), (n_rows, 0) among them, it fails
    and no cell is modified: with IndexError, or with OverflowError when
    the index the array rejects (the row index if the rows reject it, else
    the column index) lies in [2^63, 2^64).  A negative index within those
    ranges is accepted and counts from the end, so that (-1, 0) flips the
    cell (n_rows-1, 0). *)
Theorem toggle_indexing (g : Grid.t) (i j : Z) :
  wf g →
  (in_grid (Grid.n_rows g) (Grid.n_cols g) (i, j) →
     Grid.toggle i j g = Ok tt (toggled g (i, j))) ∧
  (¬ (- Grid.n_rows g ≤ i < Grid.n_rows g ∧
      - Grid.n_cols g ≤ j < Grid.n_cols g) →
     ∃ e, Grid.toggle i j g = Raise e g ∧
          (e = IndexError ∨ e = OverflowError) ∧
          (e = OverflowError ↔
             (¬ - Grid.n_rows g ≤ i < Grid.n_rows g ∧ 2 ^ 63 ≤ i < 2 ^ 64) ∨
             (- Grid.n_rows g ≤ i < Grid.n_rows g ∧ 2 ^ 63 ≤ j < 2 ^ 64))) ∧
  (- Grid.n_rows g ≤ i < Grid.n_rows g ∧
   - Grid.n_cols g ≤ j < Grid.n_cols g →
     in_grid (Grid.n_rows g) (Grid.n_cols g)
       (i `mod` Grid.n_rows g, j `mod` Grid.n_cols g) ∧
     Grid.toggle i j g =
       Ok tt (toggled g (i `mod` Grid.n_rows g, j `mod` Grid.n_cols g))) ∧
  (∀ p, in_grid (Grid.n_rows g) (Grid.n_cols g) p →
     frame g (toggled g p) ∧
     ∀ q, in_grid (Grid.n_rows g) (Grid.n_cols g) q →
          alive_at (toggled g p) q =
          if decide (q = p) then negb (alive_at g q) else alive_at g q).
Proof.
  intros Hwf. pose proof (toggle_run g i j Hwf) as Hrun. split_and!.
  - intros [Hi Hj]. cbn [fst snd] in Hi, Hj.
    rewrite Hrun, decide_True by lia. by rewrite !Z.mod_small by lia.
  - intros Hout. exists (toggle_error g i j).
    split; [by rewrite Hrun, decide_False|].
    unfold toggle_error.
    destruct (decide (- Grid.n_rows g ≤ i < Grid.n_rows g)) as [Hi|Hi].
    + destruct (index_error_cases j) as [[Hj ->]|[Hj ->]];
        (split; [tauto|]); split; first [tauto|done].
    + destruct (index_error_cases i) as [[Hi' ->]|[Hi' ->]];
        (split; [tauto|]); split; first [tauto|done].
  - intros Hin. rewrite Hrun, decide_True by done. split; [|done].
    pose proof (Z.mod_pos_bound i (Grid.n_rows g)).
    pose proof (Z.mod_pos_bound j (Grid.n_cols g)).
    split; cbn; lia.
  - intros p Hp. by apply toggled_spec.
Qed.

Lemma toggle_indexing_witness :
  (in_grid (Grid.n_rows blinker) (Grid.n_cols blinker) (5, 0) →
     Grid.toggle 5 0 blinker = Ok tt (toggled blinker (5, 0))) ∧
  (¬ (- Grid.n_rows blinker ≤ 5 < Grid.n_rows blinker ∧
      - Grid.n_cols blinker ≤ 0 < Grid.n_cols blinker) →
     ∃ e, Grid.toggle 5 0 blinker = Raise e blinker ∧
          (e = IndexError ∨ e = OverflowError) ∧
          (e = OverflowError ↔
             (¬ - Grid.n_rows blinker ≤ 5 < Grid.n_rows blinker ∧
              2 ^ 63 ≤ 5 < 2 ^ 64) ∨
             (- Grid.n_rows blinker ≤ 5 < Grid.n_rows blinker ∧
              2 ^ 63 ≤ 0 < 2 ^ 64))) ∧
  (- Grid.n_rows blinker ≤ 5 < Grid.n_rows blinker ∧
   - Grid.n_cols blinker ≤ 0 < Grid.n_cols blinker →
     in_grid (Grid.n_rows blinker) (Grid.n_cols blinker)
       (5 `mod` Grid.n_rows blinker, 0 `mod` Grid.n_cols blinker) ∧
     Grid.toggle 5 0 blinker =
       Ok tt (toggled blinker
                (5 `mod` Grid.n_rows blinker, 0 `mod` Grid.n_cols blinker))) ∧
  (∀ p, in_grid (Grid.n_rows blinker) (Grid.n_cols blinker) p →
     frame blinker (toggled blinker p) ∧
     ∀ q, in_grid (Grid.n_rows blinker) (Grid.n_cols blinker) q →
          alive_at (toggled blinker p) q =
          if decide (q = p) then negb (alive_at blinker q)
          else alive_at blinker q).
Proof. apply (toggle_indexing blinker 5 0), blinker_wf. Defined.

(** C4 as the spec words it fails: (-1, 0) lies outside
    [0,n_rows) x [0,n_cols), yet [toggle(-1, 0)] on a fresh 3 by 3 grid
    returns normally and has flipped the cell (2, 0). *)
Lemma toggle_minus_one_is_accepted :
  ¬ in_grid 3 3 (-1, 0) ∧
  alive_cells (Grid.make 3 3 10) = [] ∧
  Grid.toggle (-1) 0 (Grid.make 3 3 10)
    = Ok tt (toggled (Grid.make 3 3 10) (2, 0)) ∧
  alive_cells (toggled (Grid.make 3 3 10) (2, 0)) = [(2, 0)].
Proof.
  split_and!.
  - intros [[? _] _]. cbn in *. lia.
  - vm_compute. reflexivity.
  - vm_compute. reflexivity.
  - vm_compute. reflexivity.
Qed.

(** C9. Every operation on the grid leaves everything but the alive flags
    as it was, whether it returns or raises: n_rows, n_cols, cell_size and
    the array of references are unchanged, the store holds as many Cell
    objects as before, and each of them keeps its i, j and rect. *)
Theorem operations_keep_frame (g : Grid.t) :
  frame g (Py.state_of (Grid.update g)) ∧
  (∀ i j, frame g (Py.state_of (Grid.toggle i j g))) ∧
  (∀ cell, frame g (Py.state_of (Grid.neighbors cell g))) ∧
  (∀ cell, frame g (Py.state_of (Grid.count_alive_neighbors cell g))) ∧
  (∀ cell, frame g (Py.state_of (Grid.rule cell g))).
Proof.
  split_and!; intros.
  - apply preserves_update.
  - apply preserves_toggle.
  - apply preserves_neighbors.
  - apply preserves_count_alive_neighbors.
  - apply preserves_rule.
Qed.

(** ** Boards of alive cells *)

Lemma elem_of_positions n_rows n_cols p :
  p ∈ positions n_rows n_cols ↔ in_grid n_rows n_cols p.
Proof.
  unfold positions, in_grid. rewrite list_elem_of_bind. split.
  - intros (i & (j & ->%list_elem_of_singleton & Hj%elem_of_range)
              %list_elem_of_bind & Hi%elem_of_range).
    cbn. lia.
  - intros [Hi Hj]. exists p.1. rewrite elem_of_range. split; [|lia].
    apply list_elem_of_bind. exists p.2. rewrite elem_of_range.
    split; [|lia]. apply list_elem_of_singleton. by destruct p.
Qed.

Lemma alive_at_alive_cells (g : Grid.t) p :
  in_grid (Grid.n_rows g) (Grid.n_cols g) p →
  alive_at g p = bool_decide (p ∈ alive_cells g).
Proof.
  intros Hp. unfold alive_cells. destruct (alive_at g p) eqn:Ha; symmetry.
  - apply bool_decide_eq_true, list_elem_of_filter.
    split; [by rewrite Ha|by apply elem_of_positions].
  - apply bool_decide_eq_false. intros [Hf _]%list_elem_of_filter.
    by rewrite Ha in Hf.
Qed.

(** The alive cells after [update], computed from the alive cells before. *)
Lemma alive_cells_update (g g' : Grid.t) :
  frame g g' →
  (∀ p, in_grid (Grid.n_rows g) (Grid.n_cols g) p →
        alive_at g' p =
        life_step (Grid.n_rows g) (Grid.n_cols g) (alive_at g) p) →
  alive_cells g' =
  filter (λ p, life_step (Grid.n_rows g) (Grid.n_cols g)
                 (λ q, bool_decide (q ∈ alive_cells g)) p)
         (positions (Grid.n_rows g) (Grid.n_cols g)).
Proof.
  intros Hfr Hstep. unfold alive_cells at 1.
  rewrite (frame_n_rows _ _ Hfr), (frame_n_cols _ _ Hfr).
  apply filter_ext_in. intros p Hp%elem_of_positions.
  rewrite (Hstep p Hp).
  by rewrite (life_step_ext _ _ (alive_at g) (λ q, bool_decide (q ∈ alive_cells g)) p
                (alive_at_alive_cells g) Hp).
Qed.

Lemma filter_none {A} (P : A → Prop) `{!∀ x, Decision (P x)} (xs : list A) :
  (∀ x, x ∈ xs → ¬ P x) → filter P xs = [].
Proof.
  induction xs as [|x xs IH]; intros HP; [done|].
  rewrite filter_cons_False by (apply HP; left). apply IH.
  intros y Hy. apply HP. by right.
Qed.

(** C6. On a 5 by 5 grid that is all dead except the three alive cells
    (2,1), (2,2), (2,3), one [update] produces exactly the alive cells
    (1,2), (2,2), (3,2), and a second [update] restores exactly the alive
    cells (2,1), (2,2), (2,3): the blinker has period 2. *)
Theorem blinker_oscillates (g : Grid.t) :
  wf g → Grid.n_rows g = 5 → Grid.n_cols g = 5 →
  alive_cells g = [(2, 1); (2, 2); (2, 3)] →
  ∃ g1 g2,
    Grid.update g = Ok tt g1 ∧
    alive_cells g1 = [(1, 2); (2, 2); (3, 2)] ∧
    Grid.update g1 = Ok tt g2 ∧
    alive_cells g2 = [(2, 1); (2, 2); (2, 3)].
Proof.
  intros Hwf Hn Hm Halive.
  destruct (update_run g Hwf) as (g1 & Hrun1 & Hfr1 & Hwf1 & Hstep1).
  destruct (update_run g1 Hwf1) as (g2 & Hrun2 & Hfr2 & _ & Hstep2).
  pose proof (alive_cells_update g g1 Hfr1 Hstep1) as H1.
  rewrite Hn, Hm, Halive in H1.
  assert (alive_cells g1 = [(1, 2); (2, 2); (3, 2)]) as Halive1
    by (rewrite H1; vm_compute; reflexivity).
  pose proof (alive_cells_update g1 g2 Hfr2 Hstep2) as H2.
  rewrite (frame_n_rows _ _ Hfr1), (frame_n_cols _ _ Hfr1) in H2.
  rewrite Hn, Hm, Halive1 in H2.
  exists g1, g2. split_and!; [done..|].
  rewrite H2. vm_compute. reflexivity.
Qed.

Lemma blinker_oscillates_witness :
  ∃ g1 g2,
    Grid.update blinker = Ok tt g1 ∧
    alive_cells g1 = [(1, 2); (2, 2); (3, 2)] ∧
    Grid.update g1 = Ok tt g2 ∧
    alive_cells g2 = [(2, 1); (2, 2); (2, 3)].
Proof.
  apply (blinker_oscillates blinker).
  - apply blinker_wf.
  - vm_compute. reflexivity.
  - vm_compute. reflexivity.
  - vm_compute. reflexivity.
Defined.

Lemma make_all_dead n_rows n_cols cs p :
  alive_at (Grid.make n_rows n_cols cs) p = false.
Proof.
  unfold Grid.make.
  destruct (init_shape n_rows n_cols cs) as (rows & h & -> & Hrows). cbn.
  unfold alive_at, cell_at.
  destruct (loc_at _ _ _) as [l|] eqn:Hl; [|done].
  apply loc_at_lookup in Hl as (_ & _ & row & Ha & Hb). cbn in Ha |- *.
  destruct (Forall2_lookup_r _ _ _ _ _ Hrows Ha) as (i & _ & Hrow).
  destruct (Forall2_lookup_r _ _ _ _ _ Hrow Hb) as (j & _ & Hc).
  by rewrite Hc.
Qed.

(** C7. [update] on a grid in which every cell is dead leaves every cell
    dead, whatever the dimensions: no cell is toggled and the grid is the
    one it was. *)
Theorem update_all_dead (g : Grid.t) :
  wf g →
  (∀ p, in_grid (Grid.n_rows g) (Grid.n_cols g) p → alive_at g p = false) →
  Grid.update g = Ok tt g ∧
  ∀ p, in_grid (Grid.n_rows g) (Grid.n_cols g) p →
       alive_at (Py.state_of (Grid.update g)) p = false.
Proof.
  intros Hwf Hdead.
  assert (Grid.update g = Ok tt g) as Hrun.
  { unfold Grid.update. run_gets. unfold Grid.update_in.
    rewrite (bind_ok _ _ _ _ _ (collect_run g _ Hwf (λ l H, H))).
    rewrite filter_none; [done|].
    intros l (i & j & Hl)%elem_of_flatten.
    destruct (wf_loc_cell _ _ _ _ Hwf Hl) as (c & Hc & Hci & Hcj & _).
    pose proof (wf_loc_in_grid _ _ _ _ Hwf Hl) as Hin.
    pose proof (Hdead _ Hin) as Ha.
    rewrite (alive_at_loc g (i, j) l Hl), Hc in Ha. cbn in Ha.
    unfold flip_of. rewrite Hc, Ha, Hci, Hcj.
    unfold live_count. rewrite filter_none.
    - cbn. by intros [[? _]|[_ ?]]%bool_decide_unpack.
    - intros q [Hq _]%list_elem_of_filter. rewrite (Hdead q Hq). exact id. }
  split; [done|]. rewrite Hrun. done.
Qed.

Lemma update_all_dead_witness :
  Grid.update (Grid.make 4 3 10) = Ok tt (Grid.make 4 3 10) ∧
  ∀ p, in_grid (Grid.n_rows (Grid.make 4 3 10))
               (Grid.n_cols (Grid.make 4 3 10)) p →
       alive_at (Py.state_of (Grid.update (Grid.make 4 3 10))) p = false.
Proof.
  apply (update_all_dead (Grid.make 4 3 10)).
  - apply make_wf.
  - intros p _. apply make_all_dead.
Defined.

Lemma grid_eq (g g' : Grid.t) :
  Grid.n_rows g' = Grid.n_rows g → Grid.n_cols g' = Grid.n_cols g →
  Grid.cell_size g' = Grid.cell_size g → Grid.cells g' = Grid.cells g →
  Grid.store g' = Grid.store g → g' = g.
Proof. destruct g, g'. cbn. by intros -> -> -> -> ->. Qed.

(** The order in which [update] visits the cells does not matter. *)
Lemma update_in_permutation (g g' : Grid.t) order :
  wf g → order ≡ₚ mjoin (Grid.cells g) →
  Grid.update g = Ok tt g' → Grid.update_in order g = Ok tt g'.
Proof.
  intros Hwf Hperm Hrun.
  destruct (update_in_run g (mjoin (Grid.cells g)) Hwf)
    as (g1 & Hrun1 & _ & ? & ? & ? & ? & Hst1);
    [by apply NoDup_flatten|done|].
  destruct (update_in_run g order Hwf)
    as (g2 & Hrun2 & _ & ? & ? & ? & ? & Hst2).
  { rewrite Hperm. by apply NoDup_flatten. }
  { intros l. by rewrite Hperm. }
  unfold Grid.update in Hrun. rewrite (bind_ok _ _ _ _ _ (gets_run _ _)) in Hrun.
  assert (g' = g1) as -> by congruence.
  rewrite Hrun2. f_equal. apply grid_eq; try congruence.
  apply list_eq. intros l. rewrite Hst1, Hst2.
  apply decide_ext. by rewrite Hperm.
Qed.

(** C8. [update] is deterministic: on two grids with the same dimensions
    and the same alive flag at every index it produces the same alive flag
    at every index; and the order in which the cells are visited has no
    influence on the state it produces. *)
Theorem update_deterministic (g1 g2 : Grid.t) :
  wf g1 → wf g2 →
  Grid.n_rows g1 = Grid.n_rows g2 → Grid.n_cols g1 = Grid.n_cols g2 →
  (∀ p, in_grid (Grid.n_rows g1) (Grid.n_cols g1) p →
        alive_at g1 p = alive_at g2 p) →
  ∃ g1' g2',
    Grid.update g1 = Ok tt g1' ∧ Grid.update g2 = Ok tt g2' ∧
    Grid.n_rows g1' = Grid.n_rows g2' ∧ Grid.n_cols g1' = Grid.n_cols g2' ∧
    (∀ p, in_grid (Grid.n_rows g1) (Grid.n_cols g1) p →
          alive_at g1' p = alive_at g2' p) ∧
    (∀ order, order ≡ₚ mjoin (Grid.cells g1) →
              Grid.update_in order g1 = Ok tt g1').
Proof.
  intros Hwf1 Hwf2 Hn Hm Hsame.
  destruct (update_run g1 Hwf1) as (g1' & Hrun1 & Hfr1 & _ & Hstep1).
  destruct (update_run g2 Hwf2) as (g2' & Hrun2 & Hfr2 & _ & Hstep2).
  exists g1', g2'. split_and!; [done|done|..].
  - rewrite (frame_n_rows _ _ Hfr1), (frame_n_rows _ _ Hfr2). done.
  - rewrite (frame_n_cols _ _ Hfr1), (frame_n_cols _ _ Hfr2). done.
  - intros p Hp. rewrite (Hstep1 p Hp).
    rewrite Hn, Hm in Hp. rewrite (Hstep2 p Hp), <-Hn, <-Hm.
    rewrite <-Hn, <-Hm in Hp. by apply life_step_ext.
  - intros order Hperm. by apply update_in_permutation.
Qed.

Lemma update_deterministic_witness :
  ∃ g1' g2',
    Grid.update blinker = Ok tt g1' ∧ Grid.update blinker_small = Ok tt g2' ∧
    Grid.n_rows g1' = Grid.n_rows g2' ∧ Grid.n_cols g1' = Grid.n_cols g2' ∧
    (∀ p, in_grid (Grid.n_rows blinker) (Grid.n_cols blinker) p →
          alive_at g1' p = alive_at g2' p) ∧
    (∀ order, order ≡ₚ mjoin (Grid.cells blinker) →
              Grid.update_in order blinker = Ok tt g1').
Proof.
  apply (update_deterministic blinker blinker_small).
  - apply blinker_wf.
  - unfold blinker_small. do 3 apply toggle_wf. apply make_wf.
  - vm_compute. reflexivity.
  - vm_compute. reflexivity.
  - intros p Hp. rewrite (alive_at_alive_cells blinker p Hp).
    rewrite (alive_at_alive_cells blinker_small p Hp).
    vm_compute (alive_cells blinker). vm_compute (alive_cells blinker_small).
    reflexivity.
Defined.

(** ** The mouse handler *)

Section game.
Implicit Types (self : Game.t).

Lemma make_game_wf n_rows n_cols cs : game_wf (Game.make n_rows n_cols cs).
Proof.
  destruct (make_dims n_rows n_cols cs) as (Hn & Hm & Hcs).
  split; cbn; [apply make_wf|congruence..].
Qed.

Lemma set_grid_same self : Game.set_grid (Game.grid self) self = self.
Proof. by destruct self. Qed.

(** The handler is [self.grid.toggle(x // cell_size, y // cell_size)],
    with nothing in between. *)
Lemma handle_mouse_run self x y :
  Game.cell_size self ≠ 0 →
  Game.handle_mouse (click x y) self =
  Game.on_grid (Grid.toggle (x `div` Game.cell_size self)
                            (y `div` Game.cell_size self)) self.
Proof.
  intros Hcs. unfold Game.handle_mouse, click. cbn [pygame.pressed pygame.pos].
  run_gets. unfold Py.floordiv.
  destruct (decide (Game.cell_size self = 0)); [done|]. reflexivity.
Qed.

Lemma div_cell i x cs : 0 < cs → i * cs ≤ x < i * cs + cs ↔ i = x `div` cs.
Proof.
  intros Hcs. split.
  - intros Hx. apply (Z.div_unique_pos x cs i (x - i * cs)); lia.
  - intros ->. pose proof (Z.div_mod x cs).
    pose proof (Z.mod_pos_bound x cs). lia.
Qed.

Lemma click_cell_in_grid n_rows n_cols cs x y :
  0 < cs → 0 ≤ x < n_rows * cs → 0 ≤ y < n_cols * cs →
  in_grid n_rows n_cols (x `div` cs, y `div` cs).
Proof.
  intros Hcs Hx Hy. split; cbn; split;
    first [ apply Z.div_pos; lia | apply Z.div_lt_upper_bound; lia ].
Qed.

End game.




(** C10, where the code breaks it.  On a 2 by 3 grid with cells of 10
    pixels the window is 30 wide and 20 high, and the pixel (25, 5) lies in
    it.  The handler passes 25 // 10 = 2 as the row index of a grid with two
    rows: the click toggles no cell, the IndexError leaves [handle_events],
    and no cell of the grid is drawn over that pixel.  The cells are laid
    out with the row index along x, so that the cell (0, 2) is drawn at
    y = 20, below the window whose height the rows were meant to fill. *)
Lemma click_in_window_hits_no_cell :
  0 ≤ 25 < Game.width (Game.make 2 3 10) ∧
  0 ≤ 5 < Game.height (Game.make 2 3 10) ∧
  Game.handle_mouse (click 25 5) (Game.make 2 3 10)
    = Raise IndexError (Game.make 2 3 10) ∧
  Game.handle_events [(pygame.OTHER, click 25 5)] (Game.make 2 3 10)
    = Raise IndexError (Game.make 2 3 10) ∧
  Forall (λ c, ¬ pygame.collidepoint (Cell.rect c) 25 5)
         (Grid.store (Game.grid (Game.make 2 3 10))) ∧
  ∃ c, cell_at (Game.grid (Game.make 2 3 10)) 0 2 = Some c ∧
       Game.height (Game.make 2 3 10) ≤ pygame.top (Cell.rect c).
Proof.
  refine (conj _ (conj _ (conj _ (conj _ (conj _ _))))).
  - by vm_compute.
  - by vm_compute.
  - vm_compute. reflexivity.
  - vm_compute. reflexivity.
  - by apply (bool_decide_unpack _).
  - eexists. split; [vm_compute; reflexivity|]. by vm_compute.
Qed.

(** * Further properties of the code *)

(** ** The constructor *)

Lemma init_rows_store cs js : ∀ rs (g : Grid.t),
  Grid.store (Py.state_of
    (mapM (λ i, mapM (λ j, Grid.new_cell i j cs) js) rs g)) =
  Grid.store g ++ (i ← rs; (λ j, Cell.__init__ i j cs false) <$> js).
Proof.
  induction rs as [|i rs IH]; intros g.
  - cbn. by rewrite app_nil_r.
  - cbn [mapM]. rewrite (bind_ok _ _ _ _ _ (new_row_run i cs js g)).
    set (g1 := Grid.set_store _ g).
    destruct (init_rows_run cs js rs g1) as (rows & h & Hrun & _).
    specialize (IH g1). rewrite Hrun in IH. rewrite (bind_ok _ _ _ _ _ Hrun).
    cbn in IH |- *. rewrite IH. by rewrite <-app_assoc.
Qed.

Lemma length_rows {A B C} (f : A → B → C) (rs : list A) (js : list B) :
  length (i ← rs; f i <$> js) = (length rs * length js)%nat.
Proof.
  induction rs as [|i rs IH]; [done|].
  rewrite bind_cons, length_app, length_fmap, IH. cbn. lia.
Qed.

Lemma make_store n_rows n_cols cs :
  Grid.store (Grid.make n_rows n_cols cs) =
  (i ← Py.range 0 n_rows;
   (λ j, Cell.__init__ i j cs false) <$> Py.range 0 n_cols).
Proof.
  unfold Grid.make, Grid.__init__.
  set (g := Grid.set_dims n_rows n_cols cs Grid.blank).
  rewrite (bind_ok _ _ _ tt g) by done.
  do 3 run_gets. cbn [g Grid.set_dims Grid.n_rows Grid.n_cols Grid.cell_size].
  fold g.
  pose proof (init_rows_store cs (Py.range 0 n_cols) (Py.range 0 n_rows) g) as Hst.
  destruct (init_rows_run cs (Py.range 0 n_cols) (Py.range 0 n_rows) g)
    as (rows & h & Hrun & _).
  rewrite Hrun in Hst. rewrite (bind_ok _ _ _ _ _ Hrun). cbn in Hst |- *.
  done.
Qed.

Lemma c_int_fits z : - 2 ^ 31 ≤ z < 2 ^ 31 → pygame.c_int z = z.
Proof. intros Hz. unfold pygame.c_int. rewrite Z.mod_small; lia. Qed.

Lemma stored_fits n_rows n_cols cs i j :
  fits_display n_rows n_cols cs → 0 ≤ i < n_rows → 0 ≤ j < n_cols →
  pygame.stored (Cell.rect (Cell.__init__ i j cs false))
  = Cell.rect (Cell.__init__ i j cs false).
Proof.
  intros (Hcs & Hn & Hm) Hi Hj. unfold pygame.stored. cbn.
  assert (0 ≤ i * cs ∧ i * cs ≤ n_rows * cs) as [? ?] by nia.
  assert (0 ≤ j * cs ∧ j * cs ≤ n_cols * cs) as [? ?] by nia.
  by rewrite !c_int_fits by lia.
Qed.

(** X1. For integer arguments whose picture fits in 32-bit coordinates
    (0 <= cell_size, n_rows*cell_size and n_cols*cell_size below 2^31),
    non-positive dimensions included, [Grid(n_rows, n_cols, cell_size)]
    returns normally with a well-formed grid that records the three
    arguments and holds max(n_rows,0) * max(n_cols,0) Cell objects, every
    one of them dead and with a rectangle pygame holds unwrapped. *)
Theorem constructor_builds_dead_grid (n_rows n_cols cs : Z) :
  fits_display n_rows n_cols cs →
  Grid.__init__ n_rows n_cols cs Grid.blank
    = Ok tt (Grid.make n_rows n_cols cs) ∧
  wf (Grid.make n_rows n_cols cs) ∧
  Grid.n_rows (Grid.make n_rows n_cols cs) = n_rows ∧
  Grid.n_cols (Grid.make n_rows n_cols cs) = n_cols ∧
  Grid.cell_size (Grid.make n_rows n_cols cs) = cs ∧
  length (Grid.store (Grid.make n_rows n_cols cs))
    = (Z.to_nat n_rows * Z.to_nat n_cols)%nat ∧
  (∀ c, c ∈ Grid.store (Grid.make n_rows n_cols cs) →
        Cell.alive c = false ∧ pygame.stored (Cell.rect c) = Cell.rect c) ∧
  alive_cells (Grid.make n_rows n_cols cs) = [].
Proof.
  intros Hfit.
  destruct (make_dims n_rows n_cols cs) as (Hn & Hm & Hcs).
  split_and!; [apply init_run|apply make_wf|done..| | |].
  - rewrite make_store, length_rows, !length_range. f_equal; f_equal; lia.
  - rewrite make_store.
    intros c (i & (j & -> & Hj%elem_of_range)%list_elem_of_fmap
                & Hi%elem_of_range)%list_elem_of_bind.
    split; [done|]. by eapply stored_fits.
  - apply filter_none. intros p _. rewrite make_all_dead. exact id.
Qed.

Lemma constructor_builds_dead_grid_witness :
  Grid.__init__ 2 3 10 Grid.blank = Ok tt (Grid.make 2 3 10) ∧
  wf (Grid.make 2 3 10) ∧
  Grid.n_rows (Grid.make 2 3 10) = 2 ∧
  Grid.n_cols (Grid.make 2 3 10) = 3 ∧
  Grid.cell_size (Grid.make 2 3 10) = 10 ∧
  length (Grid.store (Grid.make 2 3 10))
    = (Z.to_nat 2 * Z.to_nat 3)%nat ∧
  (∀ c, c ∈ Grid.store (Grid.make 2 3 10) →
        Cell.alive c = false ∧ pygame.stored (Cell.rect c) = Cell.rect c) ∧
  alive_cells (Grid.make 2 3 10) = [].
Proof.
  apply (constructor_builds_dead_grid 2 3 10). unfold fits_display. lia.
Defined.

(** ** Toggling *)

Lemma toggle_toggle (c : Cell.t) : Cell.toggle (Cell.toggle c) = c.
Proof. destruct c. unfold Cell.toggle. cbn. by rewrite negb_involutive. Qed.

Lemma toggled_toggled (g : Grid.t) p : toggled (toggled g p) p = g.
Proof.
  apply grid_eq; try done. unfold toggled, ref_at, loc_at. cbn.
  rewrite list_alter_alter_eq. apply list_alter_id. intros c. apply toggle_toggle.
Qed.

Lemma alter_comm {A} (f : A → A) (xs : list A) a b :
  alter f a (alter f b xs) = alter f b (alter f a xs).
Proof.
  rewrite list_alter_alter. case_decide as Heq; [|done].
  subst. by rewrite list_alter_alter_eq.
Qed.

Lemma toggled_comm (g : Grid.t) p q :
  toggled (toggled g p) q = toggled (toggled g q) p.
Proof.
  apply grid_eq; try done. unfold toggled, ref_at, loc_at. cbn.
  apply alter_comm.
Qed.

Lemma toggled_wf (g : Grid.t) p :
  wf g → in_grid (Grid.n_rows g) (Grid.n_cols g) p → wf (toggled g p).
Proof.
  intros Hwf Hp. eapply frame_wf; [done|]. by apply toggled_spec.
Qed.

Lemma toggle_valid_run (g : Grid.t) i j :
  wf g →
  - Grid.n_rows g ≤ i < Grid.n_rows g → - Grid.n_cols g ≤ j < Grid.n_cols g →
  in_grid (Grid.n_rows g) (Grid.n_cols g)
    (i `mod` Grid.n_rows g, j `mod` Grid.n_cols g) ∧
  Grid.toggle i j g =
    Ok tt (toggled g (i `mod` Grid.n_rows g, j `mod` Grid.n_cols g)).
Proof.
  intros Hwf Hi Hj. rewrite (toggle_run g i j Hwf), decide_True by done.
  split; [|done].
  pose proof (Z.mod_pos_bound i (Grid.n_rows g)).
  pose proof (Z.mod_pos_bound j (Grid.n_cols g)).
  split; cbn; lia.
Qed.

(** X2. [toggle] is its own inverse on the grid: for indices the array
    accepts, two calls of [toggle(i, j)] in a row return the grid to the
    state it was in, object for object. *)
Theorem toggle_twice_restores (g : Grid.t) (i j : Z) :
  wf g →
  - Grid.n_rows g ≤ i < Grid.n_rows g → - Grid.n_cols g ≤ j < Grid.n_cols g →
  (Grid.toggle i j;; Grid.toggle i j) g = Ok tt g.
Proof.
  intros Hwf Hi Hj.
  destruct (toggle_valid_run g i j Hwf Hi Hj) as [Hp Hrun].
  rewrite (bind_ok _ _ _ _ _ Hrun).
  set (p := (i `mod` Grid.n_rows g, j `mod` Grid.n_cols g)) in *.
  destruct (toggle_valid_run (toggled g p) i j) as [_ Hrun'];
    [by apply toggled_wf|done..|].
  rewrite Hrun'. cbn [toggled Grid.set_store Grid.n_rows Grid.n_cols].
  fold p. fold (toggled g p). by rewrite toggled_toggled.
Qed.

Lemma toggle_twice_restores_witness :
  (Grid.toggle (-1) 3;; Grid.toggle (-1) 3) blinker = Ok tt blinker.
Proof.
  apply (toggle_twice_restores blinker (-1) 3).
  - apply blinker_wf.
  - by vm_compute.
  - by vm_compute.
Defined.

(** X3. Toggles of two cells commute: for indices the array accepts, the
    grid after [toggle(i, j); toggle(i', j')] is the grid after
    [toggle(i', j'); toggle(i, j)]. *)
Theorem toggles_commute (g : Grid.t) (i j i' j' : Z) :
  wf g →
  - Grid.n_rows g ≤ i < Grid.n_rows g → - Grid.n_cols g ≤ j < Grid.n_cols g →
  - Grid.n_rows g ≤ i' < Grid.n_rows g → - Grid.n_cols g ≤ j' < Grid.n_cols g →
  ∃ g', (Grid.toggle i j;; Grid.toggle i' j') g = Ok tt g' ∧
        (Grid.toggle i' j';; Grid.toggle i j) g = Ok tt g'.
Proof.
  intros Hwf Hi Hj Hi' Hj'.
  destruct (toggle_valid_run g i j Hwf Hi Hj) as [Hp Hrun].
  destruct (toggle_valid_run g i' j' Hwf Hi' Hj') as [Hq Hrun'].
  set (p := (i `mod` Grid.n_rows g, j `mod` Grid.n_cols g)) in *.
  set (q := (i' `mod` Grid.n_rows g, j' `mod` Grid.n_cols g)) in *.
  destruct (toggle_valid_run (toggled g p) i' j') as [_ Hpq];
    [by apply toggled_wf|done..|].
  destruct (toggle_valid_run (toggled g q) i j) as [_ Hqp];
    [by apply toggled_wf|done..|].
  cbn [toggled Grid.set_store Grid.n_rows Grid.n_cols] in Hpq, Hqp.
  fold p q in Hpq, Hqp. fold (toggled g p) in Hpq. fold (toggled g q) in Hqp.
  exists (toggled (toggled g p) q). split.
  - by rewrite (bind_ok _ _ _ _ _ Hrun).
  - rewrite (bind_ok _ _ _ _ _ Hrun'), Hqp. by rewrite toggled_comm.
Qed.

Lemma toggles_commute_witness :
  ∃ g', (Grid.toggle 0 4;; Grid.toggle (-2) 1) blinker = Ok tt g' ∧
        (Grid.toggle (-2) 1;; Grid.toggle 0 4) blinker = Ok tt g'.
Proof.
  apply (toggles_commute blinker 0 4 (-2) 1);
    [apply blinker_wf|by vm_compute..].
Defined.

(** ** Counting neighbours *)

Lemma length_moore_le n_rows n_cols p : (length (moore n_rows n_cols p) ≤ 8)%nat.
Proof. unfold moore. etrans; [apply length_filter|]. by rewrite length_fmap. Qed.

(** X4. [count_alive_neighbors] of a cell of the grid returns a number
    between 0 and the number of cells [neighbors] returns for it, which is
    at most 8. *)
Theorem count_alive_neighbors_bounds (g : Grid.t) (i j : Z) (cell : ref) :
  wf g → loc_at g i j = Some cell →
  ∃ ns n,
    Grid.neighbors cell g = Ok ns g ∧
    Grid.count_alive_neighbors cell g = Ok n g ∧
    0 ≤ n ≤ Z.of_nat (length ns) ∧ (length ns ≤ 8)%nat.
Proof.
  intros Hwf Hl.
  pose proof (wf_loc_in_grid _ _ _ _ Hwf Hl) as Hin.
  eexists _, _. split_and!.
  - by apply neighbors_run.
  - by apply count_alive_neighbors_run.
  - unfold live_count. lia.
  - rewrite length_fmap, neighbor_indices_moore by done. unfold live_count.
    apply Nat2Z.inj_le, length_filter.
  - rewrite length_fmap, neighbor_indices_moore by done. apply length_moore_le.
Qed.

Lemma count_alive_neighbors_bounds_witness :
  ∃ ns n,
    Grid.neighbors 12%nat blinker = Ok ns blinker ∧
    Grid.count_alive_neighbors 12%nat blinker = Ok n blinker ∧
    0 ≤ n ≤ Z.of_nat (length ns) ∧ (length ns ≤ 8)%nat.
Proof.
  apply (count_alive_neighbors_bounds blinker 2 2 12%nat);
    [apply blinker_wf|by vm_compute].
Defined.

Lemma neighbors_elem (g : Grid.t) i j cell :
  wf g → loc_at g i j = Some cell →
  ∀ l, l ∈ ref_at g <$>
           Grid.neighbor_indices i j (Grid.n_rows g) (Grid.n_cols g) ↔
       ∃ i' j', loc_at g i' j' = Some l ∧
                Z.abs (i' - i) ≤ 1 ∧ Z.abs (j' - j) ≤ 1 ∧ (i', j') ≠ (i, j).
Proof.
  intros Hwf Hl l.
  destruct (wf_loc_in_grid _ _ _ _ Hwf Hl) as [Hi Hj]. cbn [fst snd] in Hi, Hj.
  rewrite list_elem_of_fmap. split.
  - intros ([i' j'] & -> & Hp).
    apply elem_of_neighbor_indices in Hp as (Hi' & Hj' & Hne).
    destruct (wf_loc_at g (i', j') Hwf) as [l' Hl']; [split; cbn; lia|].
    exists i', j'. rewrite (ref_at_loc _ _ _ Hl').
    split_and!; [done|lia|lia|]. intros [= -> ->]. tauto.
  - intros (i' & j' & Hl' & Hdi & Hdj & Hne).
    destruct (wf_loc_in_grid _ _ _ _ Hwf Hl') as [Hi' Hj'].
    cbn [fst snd] in Hi', Hj'.
    exists (i', j'). split; [by rewrite (ref_at_loc g (i', j') l Hl')|].
    apply elem_of_neighbor_indices. split_and!; [lia..|].
    intros [-> ->]. done.
Qed.

(** X5. Being a neighbour is symmetric: for two cells of the grid, the
    second is in [neighbors] of the first exactly when the first is in
    [neighbors] of the second. *)
Theorem neighbors_symmetric (g : Grid.t) (i j i' j' : Z) (a b : ref) :
  wf g → loc_at g i j = Some a → loc_at g i' j' = Some b →
  ∃ na nb,
    Grid.neighbors a g = Ok na g ∧ Grid.neighbors b g = Ok nb g ∧
    (b ∈ na ↔ a ∈ nb).
Proof.
  intros Hwf Ha Hb. eexists _, _. split_and!.
  - by apply neighbors_run.
  - by apply neighbors_run.
  - rewrite (neighbors_elem g i j a Hwf Ha b).
    rewrite (neighbors_elem g i' j' b Hwf Hb a). split.
    + intros (x & y & Hxy & ? & ? & Hne).
      destruct (wf_loc_inj _ _ _ _ _ _ Hwf Hxy Hb) as [-> ->].
      exists i, j. split_and!; [done|lia|lia|]. intros [= -> ->]. done.
    + intros (x & y & Hxy & ? & ? & Hne).
      destruct (wf_loc_inj _ _ _ _ _ _ Hwf Hxy Ha) as [-> ->].
      exists i', j'. split_and!; [done|lia|lia|]. intros [= -> ->]. done.
Qed.

Lemma neighbors_symmetric_witness :
  ∃ na nb,
    Grid.neighbors 12%nat blinker = Ok na blinker ∧
    Grid.neighbors 18%nat blinker = Ok nb blinker ∧
    (18%nat ∈ na ↔ 12%nat ∈ nb).
Proof.
  apply (neighbors_symmetric blinker 2 2 3 3 12%nat 18%nat);
    [apply blinker_wf|by vm_compute..].
Defined.

(** X6. On a grid of any dimensions, a single row or column included,
    [neighbors] of the cell at (i, j) returns one cell less than the window
    of rows [i-1, i+1] cut to the grid times the window of columns
    [j-1, j+1] cut to the grid; the only cell of a 1 by 1 grid has none. *)
Theorem neighbors_count (g : Grid.t) (i j : Z) (cell : ref) :
  wf g → loc_at g i j = Some cell →
  ∃ ns,
    Grid.neighbors cell g = Ok ns g ∧
    Z.of_nat (length ns) =
      (Z.min (i + 2) (Grid.n_rows g) - Z.max (i - 1) 0) *
      (Z.min (j + 2) (Grid.n_cols g) - Z.max (j - 1) 0) - 1 ∧
    (Grid.n_rows g = 1 → Grid.n_cols g = 1 → ns = []).
Proof.
  intros Hwf Hl.
  pose proof (wf_loc_in_grid _ _ _ _ Hwf Hl) as Hin.
  assert (Z.of_nat (length (ref_at g <$> Grid.neighbor_indices i j
                              (Grid.n_rows g) (Grid.n_cols g))) =
          (Z.min (i + 2) (Grid.n_rows g) - Z.max (i - 1) 0) *
          (Z.min (j + 2) (Grid.n_cols g) - Z.max (j - 1) 0) - 1) as Hlen.
  { rewrite length_fmap, neighbor_indices_moore by done.
    destruct Hin as [Hi Hj]. cbn [fst snd] in Hi, Hj.
    unfold moore, offsets8. cbn [fmap list_fmap fst snd].
    destruct (decide (0 ≤ i + -1 < Grid.n_rows g)),
      (decide (0 ≤ i + 1 < Grid.n_rows g)),
      (decide (0 ≤ j + -1 < Grid.n_cols g)),
      (decide (0 ≤ j + 1 < Grid.n_cols g));
      repeat first
        [ rewrite filter_cons_True by (unfold in_grid; cbn [fst snd]; lia)
        | rewrite filter_cons_False by (unfold in_grid; cbn [fst snd]; lia) ];
      rewrite filter_nil; cbn [length];
      first [ replace (Z.min (i + 2) (Grid.n_rows g) - Z.max (i - 1) 0)
                with 3 by lia
            | replace (Z.min (i + 2) (Grid.n_rows g) - Z.max (i - 1) 0)
                with 2 by lia
            | replace (Z.min (i + 2) (Grid.n_rows g) - Z.max (i - 1) 0)
                with 1 by lia ];
      first [ replace (Z.min (j + 2) (Grid.n_cols g) - Z.max (j - 1) 0)
                with 3 by lia
            | replace (Z.min (j + 2) (Grid.n_cols g) - Z.max (j - 1) 0)
                with 2 by lia
            | replace (Z.min (j + 2) (Grid.n_cols g) - Z.max (j - 1) 0)
                with 1 by lia ];
      reflexivity. }
  eexists. split_and!; [by apply neighbors_run|done|].
  intros Hn Hm. apply nil_length_inv.
  destruct Hin as [Hi Hj]. cbn [fst snd] in Hi, Hj.
  rewrite Hn, Hm in Hlen |- *.
  replace (Z.min (i + 2) 1 - Z.max (i - 1) 0) with 1 in Hlen by lia.
  replace (Z.min (j + 2) 1 - Z.max (j - 1) 0) with 1 in Hlen by lia.
  lia.
Qed.

Lemma neighbors_count_witness :
  ∃ ns,
    Grid.neighbors 0%nat (Grid.make 1 4 10) = Ok ns (Grid.make 1 4 10) ∧
    Z.of_nat (length ns) =
      (Z.min (0 + 2) (Grid.n_rows (Grid.make 1 4 10)) - Z.max (0 - 1) 0) *
      (Z.min (0 + 2) (Grid.n_cols (Grid.make 1 4 10)) - Z.max (0 - 1) 0) - 1 ∧
    (Grid.n_rows (Grid.make 1 4 10) = 1 →
     Grid.n_cols (Grid.make 1 4 10) = 1 → ns = []).
Proof.
  apply (neighbors_count (Grid.make 1 4 10) 0 0 0%nat);
    [apply make_wf|by vm_compute].
Defined.

(** ** Drawing the grid *)

Lemma join_fmap_bind {A B} (f : A → list B) (xs : list A) :
  mjoin (f <$> xs) = xs ≫= f.
Proof. induction xs as [|x xs IH]; [done|]. simpl. by f_equal. Qed.

Lemma fmap_bind {A B C} (h : B → C) (f : A → list B) (xs : list A) :
  h <$> (xs ≫= f) = xs ≫= (λ x, h <$> f x).
Proof.
  induction xs as [|x xs IH]; [done|].
  by rewrite !bind_cons, fmap_app, IH.
Qed.

Lemma bind_singleton {A B} (h : A → B) (xs : list A) :
  xs ≫= (λ x, [h x]) = h <$> xs.
Proof. induction xs as [|x xs IH]; [done|]. simpl. by f_equal. Qed.

Lemma fmap_ext_in {A B} (f h : A → B) (xs : list A) :
  (∀ x, x ∈ xs → f x = h x) → f <$> xs = h <$> xs.
Proof.
  intros Hfh. apply list_fmap_ext. intros k x Hx.
  apply Hfh. by eapply list_elem_of_lookup_2.
Qed.

Lemma filter_fmap {A B} (f : A → B) (P : B → Prop)
    `{!∀ y, Decision (P y)} (xs : list A) :
  filter P (f <$> xs) = f <$> filter (λ x, P (f x)) xs.
Proof.
  induction xs as [|x xs IH]; [done|].
  rewrite fmap_cons, !filter_cons. case_decide; cbn; by rewrite IH.
Qed.

Lemma foldl_snoc {A B} (f : A → B) (xs : list A) :
  ∀ s, foldl (λ s x, s ++ [f x]) s xs = s ++ (f <$> xs).
Proof.
  induction xs as [|x xs IH]; intros s; cbn; [by rewrite app_nil_r|].
  by rewrite IH, <-app_assoc.
Qed.

Lemma foldl_draw_alive (os : list Cell.t) : ∀ s,
  foldl (λ s o, if Cell.alive o then Cell.draw o s else s) s os =
  s ++ ((λ o, pygame.draw_rect pygame.BLACK (Cell.rect o))
          <$> filter (λ o, Cell.alive o) os).
Proof.
  induction os as [|o os IH]; intros s; cbn [foldl];
    [by rewrite filter_nil, app_nil_r|].
  rewrite IH, filter_cons. destruct (Cell.alive o); cbn.
  - unfold Cell.draw. by rewrite <-app_assoc.
  - done.
Qed.

(** The array, row by row, holds the references at the index pairs taken
    row by row. *)
Lemma wf_cells (g : Grid.t) :
  wf g →
  Grid.cells g =
  (λ i, (λ j, ref_at g (i, j)) <$> Py.range 0 (Grid.n_cols g))
    <$> Py.range 0 (Grid.n_rows g).
Proof.
  intros Hwf. apply list_eq. intros a. rewrite list_lookup_fmap.
  pose proof (wf_rows g Hwf) as Hrows.
  destruct (Grid.cells g !! a) as [row|] eqn:Hrow.
  - pose proof (lookup_lt_Some _ _ _ Hrow) as Ha.
    rewrite lookup_range by lia. cbn. f_equal.
    pose proof (wf_cols g Hwf row (list_elem_of_lookup_2 _ _ _ Hrow)) as Hcols.
    apply list_eq. intros b. rewrite list_lookup_fmap.
    destruct (row !! b) as [l|] eqn:Hl.
    + pose proof (lookup_lt_Some _ _ _ Hl) as Hb.
      rewrite lookup_range by lia. cbn. f_equal. symmetry.
      apply ref_at_loc, loc_at_lookup. cbn [fst snd].
      rewrite !Z.add_0_l, !Nat2Z.id. split_and!; [lia..|]. eauto.
    + apply lookup_ge_None_1 in Hl.
      unfold Py.range. rewrite lookup_seqZ_ge by lia. done.
  - apply lookup_ge_None_1 in Hrow.
    unfold Py.range. rewrite lookup_seqZ_ge by lia. done.
Qed.

Lemma flatten_positions (g : Grid.t) :
  wf g →
  mjoin (Grid.cells g) =
  ref_at g <$> positions (Grid.n_rows g) (Grid.n_cols g).
Proof.
  intros Hwf. rewrite (wf_cells g Hwf) at 1.
  rewrite join_fmap_bind. unfold positions. rewrite fmap_bind.
  apply list_bind_ext; [|done]. intros i.
  by rewrite bind_singleton, <-list_fmap_compose.
Qed.

Lemma cell_of_loc (g : Grid.t) p l :
  loc_at g p.1 p.2 = Some l →
  cell_of g p = default (Cell.__init__ 0 0 0 false) (Grid.store g !! l).
Proof. unfold cell_of, cell_at. by intros ->. Qed.

Lemma deref_all_run (g : Grid.t) :
  wf g →
  mapM Grid.deref (mjoin (Grid.cells g)) g =
  Ok (cell_of g <$> positions (Grid.n_rows g) (Grid.n_cols g)) g.
Proof.
  intros Hwf. rewrite (flatten_positions g Hwf).
  rewrite (mapM_readonly_fmap Grid.deref
             (λ l, default (Cell.__init__ 0 0 0 false) (Grid.store g !! l))).
  - f_equal. rewrite <-list_fmap_compose. apply fmap_ext_in.
    intros p Hp%elem_of_positions.
    destruct (wf_loc_at g p Hwf Hp) as [l Hl]. cbn.
    by rewrite (ref_at_loc _ _ _ Hl), (cell_of_loc _ _ _ Hl).
  - intros l ([i j] & -> & Hp%elem_of_positions)%list_elem_of_fmap.
    destruct (wf_loc_at g (i, j) Hwf Hp) as [l Hl].
    destruct (wf_loc_cell _ _ _ _ Hwf Hl) as (c & Hc & _).
    rewrite (ref_at_loc _ _ _ Hl), Hc. by apply deref_run.
Qed.

Lemma grid_draw_run (g : Grid.t) surface :
  wf g →
  Grid.draw surface g =
  Ok (surface ++ grid_picture (Grid.n_rows g) (Grid.n_cols g)
                   (Grid.cell_size g) (alive_cells g)) g.
Proof.
  intros Hwf. unfold Grid.draw. do 4 run_gets.
  rewrite (bind_ok _ _ _ _ _ (deref_all_run g Hwf)), ret_run. f_equal.
  rewrite foldl_draw_alive, !foldl_snoc. unfold grid_picture.
  rewrite <-!app_assoc. do 3 f_equal.
  rewrite filter_fmap, <-list_fmap_compose. unfold alive_cells.
  assert (filter (λ p, Cell.alive (cell_of g p))
            (positions (Grid.n_rows g) (Grid.n_cols g)) =
          filter (λ p, alive_at g p)
            (positions (Grid.n_rows g) (Grid.n_cols g))) as ->.
  { apply filter_ext_in. intros p Hp%elem_of_positions.
    destruct (wf_loc_at g p Hwf Hp) as [l Hl].
    destruct (wf_loc_cell _ _ _ _ Hwf Hl) as (c & Hc & _).
    by rewrite (cell_of_loc _ _ _ Hl), (alive_at_loc _ _ _ Hl), Hc. }
  apply fmap_ext_in. intros [i j] [_ Hp%elem_of_positions]%list_elem_of_filter.
  destruct (wf_loc_at g (i, j) Hwf Hp) as [l Hl]. cbn [fst snd] in Hl.
  destruct (wf_loc_cell _ _ _ _ Hwf Hl) as (c & Hc & _ & _ & Hrect).
  cbn. rewrite (cell_of_loc g (i, j) l Hl), Hc. cbn. by rewrite Hrect.
Qed.



(** ** The event loop *)

Section events.
Implicit Types (self : Game.t) (events : list (pygame.Event * pygame.mouse)).

Lemma bind_ok_inv {S A B} (m : M S A) (k : A → M S B) (s s' : S) b :
  (m ≫= k) s = Ok b s' → ∃ a s1, m s = Ok a s1 ∧ k a s1 = Ok b s'.
Proof. rewrite bind_run. destruct (m s) as [a s1|]; [eauto|done]. Qed.

Lemma game_frame_refl self : game_frame self self.
Proof. split; try done. apply frame_refl. Qed.

Lemma game_frame_trans self1 self2 self3 :
  game_frame self1 self2 → game_frame self2 self3 → game_frame self1 self3.
Proof.
  intros [] []. split; try congruence. by eapply frame_trans.
Qed.

Lemma game_frame_wf self self' :
  game_wf self → game_frame self self' → game_wf self'.
Proof.
  intros [Hwf Hcs Hw Hh] [Hfr Hcs' Hw' Hh' _]. split.
  - by eapply frame_wf.
  - rewrite (frame_cell_size _ _ Hfr). congruence.
  - rewrite (frame_n_cols _ _ Hfr). congruence.
  - rewrite (frame_n_rows _ _ Hfr). congruence.
Qed.

Lemma game_preserves_ret {A} (a : A) : game_preserves (mret a).
Proof. intros self. apply game_frame_refl. Qed.

Lemma game_preserves_gets {A} (f : Game.t → A) : game_preserves (Py.gets f).
Proof. intros self. apply game_frame_refl. Qed.

Lemma game_preserves_bind {A B} (m : M Game.t A) (k : A → M Game.t B) :
  game_preserves m → (∀ a, game_preserves (k a)) → game_preserves (m ≫= k).
Proof.
  intros Hm Hk self. rewrite bind_run. specialize (Hm self).
  destruct (m self) as [a s|e s]; cbn in *; [|done].
  eapply game_frame_trans; [done|apply Hk].
Qed.

Lemma game_preserves_on_grid {A} (m : M Grid.t A) :
  preserves m → game_preserves (Game.on_grid m).
Proof.
  intros Hm self. unfold Game.on_grid. specialize (Hm (Game.grid self)).
  destruct (m (Game.grid self)); by split.
Qed.

Lemma game_preserves_handle_mouse m : game_preserves (Game.handle_mouse m).
Proof.
  unfold Game.handle_mouse. destruct (pygame.pressed m);
    [|apply game_preserves_ret].
  apply game_preserves_bind; [apply game_preserves_gets|]. intros cs.
  unfold Py.floordiv.
  destruct (decide (cs = 0)); [intros self; apply game_frame_refl|].
  apply game_preserves_bind; [apply game_preserves_ret|]. intros i.
  apply game_preserves_bind; [apply game_preserves_ret|]. intros j.
  apply game_preserves_on_grid, preserves_toggle.
Qed.

Lemma game_preserves_handle_events events :
  game_preserves (Game.handle_events events).
Proof.
  induction events as [|[event m] events IH]; [apply game_preserves_ret|].
  assert (game_preserves (Game.handle_mouse m;; Game.handle_events events))
    as Hrest.
  { apply game_preserves_bind; [apply game_preserves_handle_mouse|done]. }
  destruct event as [|key|]; cbn [Game.handle_events].
  - intros self. by split; [apply frame_refl|..].
  - apply game_preserves_bind; [|done].
    case_decide; [|apply game_preserves_ret].
    intros self. by split; [apply frame_refl|..].
  - apply game_preserves_bind; [apply game_preserves_ret|done].
Qed.

Lemma game_preserves_update_step : game_preserves Game.update_step.
Proof.
  unfold Game.update_step.
  apply game_preserves_bind; [apply game_preserves_gets|].
  intros [|]; [apply game_preserves_ret|].
  apply game_preserves_on_grid, preserves_update.
Qed.

Lemma preserves_draw surface : preserves (Grid.draw surface).
Proof.
  unfold Grid.draw.
  do 4 (apply preserves_bind; [apply preserves_gets|]; intros ?).
  apply preserves_bind; [|intros; apply preserves_ret].
  apply preserves_mapM, preserves_deref.
Qed.

Lemma game_preserves_draw screen : game_preserves (Game.draw screen).
Proof.
  unfold Game.draw. apply game_preserves_bind.
  - apply game_preserves_on_grid, preserves_draw.
  - intros ops. apply game_preserves_ret.
Qed.

Lemma game_preserves_run frames : ∀ screen,
  game_preserves (Game.run frames screen).
Proof.
  induction frames as [|events frames IH]; intros screen.
  { cbn [Game.run]. apply game_preserves_bind; [apply game_preserves_gets|].
    intros [|]; [|apply game_preserves_ret].
    intros self. apply game_frame_refl. }
  cbn [Game.run].
  apply game_preserves_bind; [apply game_preserves_gets|].
  intros [|]; [|apply game_preserves_ret].
  apply game_preserves_bind; [apply game_preserves_handle_events|]. intros _.
  apply game_preserves_bind; [apply game_preserves_update_step|]. intros _.
  apply game_preserves_bind; [apply game_preserves_draw|]. intros screen'.
  apply IH.
Qed.

End events.

(** X8. The main loop keeps the game consistent, however it ends: after
    [run] on any input, returned or interrupted by an exception, the grid
    is well formed with the dimensions and the Cell objects it started
    with, it shares the cell size of the game, and the window still
    measures n_cols*cell_size by n_rows*cell_size. *)
Theorem run_keeps_game_consistent (self : Game.t)
    (frames : list (list (pygame.Event * pygame.mouse)))
    (screen : pygame.Screen) :
  game_wf self →
  game_wf (Py.state_of (Game.run frames screen self)) ∧
  game_frame self (Py.state_of (Game.run frames screen self)).
Proof.
  intros Hwf. pose proof (game_preserves_run frames screen self) as Hfr.
  split; [by eapply game_frame_wf|done].
Qed.

Lemma run_keeps_game_consistent_witness :
  game_wf (Py.state_of
    (Game.run [[(pygame.KEYDOWN 32, click 15 5)]; [(pygame.QUIT, click 0 0)]]
       [] (Game.make 3 3 10))) ∧
  game_frame (Game.make 3 3 10) (Py.state_of
    (Game.run [[(pygame.KEYDOWN 32, click 15 5)]; [(pygame.QUIT, click 0 0)]]
       [] (Game.make 3 3 10))).
Proof.
  apply (run_keeps_game_consistent (Game.make 3 3 10)), make_game_wf.
Defined.


(** ** What [handle_events] does with its events *)

(** X9. [handle_events] stops at the first QUIT: whatever events and mouse
    states come after it in the queue have no effect on the outcome. *)
Theorem events_after_quit_are_dropped
    (before after : list (pygame.Event * pygame.mouse))
    (m : pygame.mouse) (self : Game.t) :
  Game.handle_events (before ++ (pygame.QUIT, m) :: after) self =
  Game.handle_events (before ++ [(pygame.QUIT, m)]) self.
Proof.
  revert self. induction before as [|[event m'] before IH]; intros self;
    [done|].
  destruct event as [|key|]; cbn [app Game.handle_events]; [done|..].
  - rewrite !bind_run. destruct (_ self) as [[] s|]; [|done].
    rewrite !bind_run. destruct (Game.handle_mouse m' s) as [[] s'|]; [|done].
    apply IH.
  - rewrite !bind_run. cbn.
    rewrite !bind_run. destruct (Game.handle_mouse m' self) as [[] s'|]; [|done].
    apply IH.
Qed.

Lemma quits_cons_other e (events : list (pygame.Event * pygame.mouse)) :
  e.1 ≠ pygame.QUIT → quits (e :: events) = quits events.
Proof.
  intros He. unfold quits. apply bool_decide_ext.
  rewrite Exists_cons. tauto.
Qed.

Lemma handle_mouse_released m (self : Game.t) :
  pygame.pressed m = false → Game.handle_mouse m self = Ok tt self.
Proof. intros Hm. unfold Game.handle_mouse. by rewrite Hm. Qed.

(** X10. Events that come with the button up never touch the grid:
    [handle_events] returns normally, [running] is cleared exactly when a
    QUIT is among the events, [paused] is inverted once for every press of
    the space bar that comes before the first QUIT, and every other field,
    the grid among them, is as it was. *)
Theorem keyboard_events_spare_grid (self : Game.t)
    (events : list (pygame.Event * pygame.mouse)) :
  Forall (λ e, pygame.pressed e.2 = false) events →
  Game.handle_events events self =
  Ok tt (Game.set_running (Game.running self && negb (quits events))
           (Game.set_paused (xorb (Game.paused self) (space_parity events))
              self)).
Proof.
  intros Hup. revert self.
  induction Hup as [|[event m] events Hm _ IH]; intros self.
  - cbn. destruct self. cbn. by rewrite andb_true_r, xorb_false_r.
  - cbn [fst snd] in Hm. destruct event as [|key|].
    + cbn. destruct self. unfold Py.modify, Game.set_running, Game.set_paused.
      cbn. by rewrite andb_false_r, xorb_false_r.
    + rewrite quits_cons_other by done. cbn [Game.handle_events space_parity].
      case_decide as Hkey.
      * rewrite (bind_ok _ _ _ tt
          (Game.set_paused (negb (Game.paused self)) self)) by done.
        rewrite (bind_ok _ _ _ _ _ (handle_mouse_released _ _ Hm)), IH.
        rewrite bool_decide_eq_true_2 by done. destruct self. cbn.
        unfold Game.set_running, Game.set_paused. cbn.
        by destruct paused, (space_parity events).
      * rewrite (bind_ok _ _ _ tt self) by done.
        rewrite (bind_ok _ _ _ _ _ (handle_mouse_released _ _ Hm)), IH.
        by rewrite bool_decide_eq_false_2 by done.
    + rewrite quits_cons_other by done. cbn [Game.handle_events space_parity].
      rewrite (bind_ok _ _ _ tt self) by done.
      by rewrite (bind_ok _ _ _ _ _ (handle_mouse_released _ _ Hm)), IH.
Qed.

Lemma keyboard_events_spare_grid_witness :
  Game.handle_events
    [(pygame.KEYDOWN 32, {| pygame.pressed := false; pygame.pos := (5, 5) |});
     (pygame.KEYDOWN 13, {| pygame.pressed := false; pygame.pos := (5, 5) |});
     (pygame.QUIT, {| pygame.pressed := false; pygame.pos := (5, 5) |});
     (pygame.KEYDOWN 32, {| pygame.pressed := false; pygame.pos := (5, 5) |})]
    (Game.make 3 3 10) =
  Ok tt (Game.set_running false (Game.set_paused false (Game.make 3 3 10))).
Proof.
  apply (keyboard_events_spare_grid (Game.make 3 3 10)).
  repeat constructor.
Defined.

Lemma set_grid_set_grid g1 (self : Game.t) :
  Game.set_grid (Game.grid self) (Game.set_grid g1 self) = self.
Proof. by destruct self. Qed.

Lemma click_run (self : Game.t) x y :
  wf (Game.grid self) → Game.cell_size self ≠ 0 →
  - Grid.n_rows (Game.grid self) ≤ x `div` Game.cell_size self
    < Grid.n_rows (Game.grid self) →
  - Grid.n_cols (Game.grid self) ≤ y `div` Game.cell_size self
    < Grid.n_cols (Game.grid self) →
  Game.handle_mouse (click x y) self =
  Ok tt (Game.set_grid
           (toggled (Game.grid self)
              ((x `div` Game.cell_size self) `mod` Grid.n_rows (Game.grid self),
               (y `div` Game.cell_size self) `mod` Grid.n_cols (Game.grid self)))
           self).
Proof.
  intros Hwf Hcs Hi Hj. rewrite handle_mouse_run by done. unfold Game.on_grid.
  destruct (toggle_valid_run _ _ _ Hwf Hi Hj) as [_ ->]. done.
Qed.

(** X11. The button is not edge-triggered: a cell under a held button is
    toggled once for every event of the queue.  After k events handled with
    the button down at the same pixel over a cell, the handler has returned
    normally, that cell is as it was if k is even and inverted if k is odd,
    no other cell and no other field has changed, and for an even k the
    game is exactly the one it was. *)
Theorem held_button_flickers (self : Game.t) (x y : Z) (k : nat) :
  game_wf self → Game.cell_size self ≠ 0 →
  - Grid.n_rows (Game.grid self) ≤ x `div` Game.cell_size self
    < Grid.n_rows (Game.grid self) →
  - Grid.n_cols (Game.grid self) ≤ y `div` Game.cell_size self
    < Grid.n_cols (Game.grid self) →
  ∃ self',
    Game.handle_events (replicate k (pygame.OTHER, click x y)) self
      = Ok tt self' ∧
    game_frame self self' ∧
    Game.running self' = Game.running self ∧
    Game.paused self' = Game.paused self ∧
    (Nat.even k = true → self' = self) ∧
    ∀ q, in_grid (Grid.n_rows (Game.grid self))
                 (Grid.n_cols (Game.grid self)) q →
         alive_at (Game.grid self') q =
         if decide (q = ((x `div` Game.cell_size self)
                           `mod` Grid.n_rows (Game.grid self),
                         (y `div` Game.cell_size self)
                           `mod` Grid.n_cols (Game.grid self)))
         then xorb (Nat.odd k) (alive_at (Game.grid self) q)
         else alive_at (Game.grid self) q.
Proof.
  intros [Hwf _ _ _] Hcs Hi Hj.
  set (p := ((x `div` Game.cell_size self) `mod` Grid.n_rows (Game.grid self),
             (y `div` Game.cell_size self) `mod` Grid.n_cols (Game.grid self))).
  set (self1 := Game.set_grid (toggled (Game.grid self) p) self).
  destruct (toggle_valid_run _ _ _ Hwf Hi Hj) as [Hp _]. fold p in Hp.
  destruct (toggled_spec _ _ Hwf Hp) as [Hfr Hboard].
  assert (Game.handle_mouse (click x y) self = Ok tt self1) as H1
    by (by apply click_run).
  assert (Game.handle_mouse (click x y) self1 = Ok tt self) as H2.
  { rewrite click_run; [|by apply toggled_wf|done..].
    change (Game.grid self1) with (toggled (Game.grid self) p).
    change (Game.cell_size self1) with (Game.cell_size self).
    change (Grid.n_rows (toggled (Game.grid self) p))
      with (Grid.n_rows (Game.grid self)).
    change (Grid.n_cols (toggled (Game.grid self) p))
      with (Grid.n_cols (Game.grid self)).
    fold p. rewrite toggled_toggled. unfold self1.
    by rewrite set_grid_set_grid. }
  assert (∀ n,
    Game.handle_events (replicate n (pygame.OTHER, click x y)) self
      = Ok tt (if Nat.even n then self else self1) ∧
    Game.handle_events (replicate n (pygame.OTHER, click x y)) self1
      = Ok tt (if Nat.even n then self1 else self)) as Hloop.
  { induction n as [|n [IH IH1]]; [done|].
    cbn [replicate Game.handle_events]. rewrite Nat.even_succ, <-Nat.negb_even.
    split.
    - rewrite (bind_ok _ _ _ tt self) by done.
      rewrite (bind_ok _ _ _ _ _ H1), IH1. by destruct (Nat.even n).
    - rewrite (bind_ok _ _ _ tt self1) by done.
      rewrite (bind_ok _ _ _ _ _ H2), IH. by destruct (Nat.even n). }
  exists (if Nat.even k then self else self1).
  split; [apply Hloop|]. rewrite <-Nat.negb_even.
  destruct (Nat.even k); cbn [negb].
  - refine (conj (game_frame_refl _)
              (conj eq_refl (conj eq_refl (conj (λ _, eq_refl) _)))).
    intros q _. by case_decide.
  - refine (conj _ (conj eq_refl (conj eq_refl (conj _ Hboard))));
      [by split|done].
Qed.

Lemma held_button_flickers_witness :
  ∃ self',
    Game.handle_events (replicate 3 (pygame.OTHER, click 15 25))
      (Game.make 3 3 10) = Ok tt self' ∧
    game_frame (Game.make 3 3 10) self' ∧
    Game.running self' = Game.running (Game.make 3 3 10) ∧
    Game.paused self' = Game.paused (Game.make 3 3 10) ∧
    (Nat.even 3 = true → self' = Game.make 3 3 10) ∧
    ∀ q, in_grid (Grid.n_rows (Game.grid (Game.make 3 3 10)))
                 (Grid.n_cols (Game.grid (Game.make 3 3 10))) q →
         alive_at (Game.grid self') q =
         if decide (q = ((15 `div` Game.cell_size (Game.make 3 3 10))
                           `mod` Grid.n_rows (Game.grid (Game.make 3 3 10)),
                         (25 `div` Game.cell_size (Game.make 3 3 10))
                           `mod` Grid.n_cols (Game.grid (Game.make 3 3 10))))
         then xorb (Nat.odd 3) (alive_at (Game.grid (Game.make 3 3 10)) q)
         else alive_at (Game.grid (Game.make 3 3 10)) q.
Proof.
  apply (held_button_flickers (Game.make 3 3 10) 15 25 3);
    [apply make_game_wf|by vm_compute..].
Defined.

(** ** The legend *)

Lemma display_commands_from (commands : list string) : ∀ screen pos_y,
  (foldl (λ '(screen, pos_y) command,
            (screen ++ [pygame.blit_text command pygame.BLACK (10, pos_y)],
             pos_y + (20 + 5)))
         (screen, pos_y) commands).1 =
  screen ++ imap (λ k text, pygame.blit_text text pygame.BLACK
                              (10, pos_y + 25 * Z.of_nat k)) commands.
Proof.
  induction commands as [|text commands IH]; intros screen pos_y;
    [cbn; by rewrite app_nil_r|].
  cbn [foldl]. rewrite IH, imap_cons, <-app_assoc. cbn [app].
  rewrite Z.mul_0_r, Z.add_0_r. do 2 f_equal.
  apply imap_ext. intros k text' _. cbn. do 2 f_equal. lia.
Qed.


(** ** The main loop *)

Lemma blinker_game_wf : game_wf blinker_game.
Proof.
  eapply game_frame_wf; [apply (make_game_wf 5 5 10)|].
  apply game_preserves_handle_events.
Qed.

Lemma quiet_events_run (self : Game.t)
    (events : list (pygame.Event * pygame.mouse)) :
  Forall quiet events → Game.handle_events events self = Ok tt self.
Proof.
  induction 1 as [|[event m] events (Hq & Hs & Hm) _ IH]; [done|].
  cbn [fst snd] in *. destruct event as [|key|]; [done|..];
    cbn [Game.handle_events].
  - rewrite decide_False by (intros ->; done).
    rewrite (bind_ok _ _ _ tt self) by done.
    by rewrite (bind_ok _ _ _ _ _ (handle_mouse_released _ _ Hm)).
  - rewrite (bind_ok _ _ _ tt self) by done.
    by rewrite (bind_ok _ _ _ _ _ (handle_mouse_released _ _ Hm)).
Qed.

Lemma game_draw_run (self : Game.t) screen :
  wf (Game.grid self) →
  Game.draw screen self =
  Ok (Game.display_commands None (screen ++ [pygame.fill pygame.WHITE]) ++
      (pygame.shape <$>
         grid_picture (Grid.n_rows (Game.grid self))
           (Grid.n_cols (Game.grid self)) (Grid.cell_size (Game.grid self))
           (alive_cells (Game.grid self)))) self.
Proof.
  intros Hwf. unfold Game.draw.
  rewrite (bind_ok _ _ _
    ([] ++ grid_picture (Grid.n_rows (Game.grid self))
             (Grid.n_cols (Game.grid self)) (Grid.cell_size (Game.grid self))
             (alive_cells (Game.grid self))) self); [done|].
  unfold Game.on_grid. by rewrite (grid_draw_run _ _ Hwf), set_grid_same.
Qed.

(** X13. [Game.draw] leaves the game as it is and paints one frame on the
    screen: the fill with white, the three lines of the legend at
    (10, 10), (10, 35) and (10, 60), then the lines of the grid and one
    black square for each alive cell. *)
Theorem draw_paints_frame (self : Game.t) (screen : pygame.Screen) :
  wf (Game.grid self) →
  Game.draw screen self =
  Ok (screen ++
      [pygame.fill pygame.WHITE;
       pygame.blit_text "Commands" pygame.BLACK (10, 10);
       pygame.blit_text "Press RETURN: PAUSE/UNPAUSE the game" pygame.BLACK
         (10, 35);
       pygame.blit_text "Left click: toggle a cell" pygame.BLACK (10, 60)] ++
      (pygame.shape <$>
         grid_picture (Grid.n_rows (Game.grid self))
           (Grid.n_cols (Game.grid self)) (Grid.cell_size (Game.grid self))
           (alive_cells (Game.grid self)))) self.
Proof.
  intros Hwf. rewrite (game_draw_run self screen Hwf). f_equal.
  unfold Game.display_commands. rewrite display_commands_from.
  by rewrite <-!app_assoc.
Qed.

Lemma draw_paints_frame_witness :
  Game.draw [] blinker_game =
  Ok ([] ++
      [pygame.fill pygame.WHITE;
       pygame.blit_text "Commands" pygame.BLACK (10, 10);
       pygame.blit_text "Press RETURN: PAUSE/UNPAUSE the game" pygame.BLACK
         (10, 35);
       pygame.blit_text "Left click: toggle a cell" pygame.BLACK (10, 60)] ++
      (pygame.shape <$>
         grid_picture (Grid.n_rows (Game.grid blinker_game))
           (Grid.n_cols (Game.grid blinker_game))
           (Grid.cell_size (Game.grid blinker_game))
           (alive_cells (Game.grid blinker_game)))) blinker_game.
Proof. apply (draw_paints_frame blinker_game []), blinker_game_wf. Defined.

Lemma run_stopped (self : Game.t) frames screen :
  Game.running self = false → Game.run frames screen self = Ok screen self.
Proof.
  intros Hr. destruct frames; cbn [Game.run];
    rewrite (bind_ok _ _ _ _ _ (gets_run _ _)); by rewrite Hr.
Qed.

Lemma run_out_of_input (self : Game.t) screen :
  Game.running self = true →
  Game.run [] screen self = Raise StillRunning self.
Proof.
  intros Hr. cbn [Game.run].
  rewrite (bind_ok _ _ _ _ _ (gets_run _ _)). by rewrite Hr.
Qed.

(** X14. While the game is paused the loop never advances the grid: on a
    running, paused game, after any number of passes with quiet input (no
    QUIT, no space bar, button up) the loop is still running, it has not
    returned, and the game is exactly as it was. *)
Theorem paused_run_changes_nothing (self : Game.t)
    (frames : list (list (pygame.Event * pygame.mouse)))
    (screen : pygame.Screen) :
  game_wf self → Game.running self = true → Game.paused self = true →
  Forall (Forall quiet) frames →
  Game.run frames screen self = Raise StillRunning self.
Proof.
  intros [Hwf _ _ _] Hr Hp Hq. revert screen.
  induction Hq as [|events frames He _ IH]; intros screen;
    [by apply run_out_of_input|].
  cbn [Game.run]. rewrite (bind_ok _ _ _ _ _ (gets_run _ _)), Hr.
  rewrite (bind_ok _ _ _ _ _ (quiet_events_run self events He)).
  rewrite (bind_ok _ _ _ tt self)
    by (unfold Game.update_step;
        by rewrite (bind_ok _ _ _ _ _ (gets_run _ _)), Hp).
  rewrite (bind_ok _ _ _ _ _ (game_draw_run self screen Hwf)).
  apply IH.
Qed.

Lemma paused_run_changes_nothing_witness :
  Game.run [[]; [(pygame.KEYDOWN 13, {| pygame.pressed := false;
                                        pygame.pos := (7, 7) |})]; []]
    [] (Game.make 4 3 10)
  = Raise StillRunning (Game.make 4 3 10).
Proof.
  apply (paused_run_changes_nothing (Game.make 4 3 10)).
  - apply make_game_wf.
  - reflexivity.
  - reflexivity.
  - repeat constructor; cbn; discriminate.
Defined.

Lemma generations_ext k n_rows n_cols (b1 b2 : Z * Z → bool) :
  (∀ q, in_grid n_rows n_cols q → b1 q = b2 q) →
  ∀ p, in_grid n_rows n_cols p →
       generations k n_rows n_cols b1 p = generations k n_rows n_cols b2 p.
Proof.
  intros Hb. induction k as [|k IH]; intros p Hp; [by apply Hb|].
  unfold generations in *. cbn [Nat.iter]. by apply life_step_ext.
Qed.

Lemma generations_succ k n_rows n_cols (b : Z * Z → bool) :
  generations (S k) n_rows n_cols b =
  generations k n_rows n_cols (life_step n_rows n_cols b).
Proof. unfold generations. apply Nat.iter_succ_r. Qed.

Lemma update_step_run (self : Game.t) :
  game_wf self → Game.paused self = false →
  ∃ g', Game.update_step self = Ok tt (Game.set_grid g' self) ∧
        frame (Game.grid self) g' ∧
        ∀ p, in_grid (Grid.n_rows (Game.grid self))
                     (Grid.n_cols (Game.grid self)) p →
             alive_at g' p =
             life_step (Grid.n_rows (Game.grid self))
               (Grid.n_cols (Game.grid self)) (alive_at (Game.grid self)) p.
Proof.
  intros [Hwf _ _ _] Hp.
  destruct (update_run _ Hwf) as (g' & Hrun & Hfr & _ & Hstep).
  exists g'. split_and!; [|done..].
  unfold Game.update_step.
  rewrite (bind_ok _ _ _ _ _ (gets_run _ _)), Hp.
  unfold Game.on_grid. by rewrite Hrun.
Qed.

(** X15. While the game runs unpaused, every pass of the loop is one
    generation: after k passes with quiet input the loop is still running
    (it has not returned), the game is still unpaused, and the board of the
    grid is the board it started from advanced by k synchronous generations
    of Life. *)
Theorem unpaused_run_generations (self : Game.t)
    (frames : list (list (pygame.Event * pygame.mouse)))
    (screen : pygame.Screen) :
  game_wf self → Game.running self = true → Game.paused self = false →
  Forall (Forall quiet) frames →
  ∃ self',
    Game.run frames screen self = Raise StillRunning self' ∧
    game_frame self self' ∧
    Game.running self' = true ∧ Game.paused self' = false ∧
    ∀ p, in_grid (Grid.n_rows (Game.grid self))
                 (Grid.n_cols (Game.grid self)) p →
         alive_at (Game.grid self') p =
         generations (length frames) (Grid.n_rows (Game.grid self))
           (Grid.n_cols (Game.grid self)) (alive_at (Game.grid self)) p.
Proof.
  intros Hgame Hr Hp Hq. revert self screen Hgame Hr Hp.
  induction Hq as [|events frames He _ IH]; intros self screen Hgame Hr Hp.
  - exists self. split_and!; try done; [by apply run_out_of_input|].
    apply game_frame_refl.
  - destruct (update_step_run self Hgame Hp) as (g1 & Hupd & Hfr & Hstep).
    set (self1 := Game.set_grid g1 self) in *.
    assert (game_frame self self1) as Hfr1 by (by split).
    pose proof (game_frame_wf _ _ Hgame Hfr1) as Hgame1.
    destruct (IH self1
        (Game.display_commands None (screen ++ [pygame.fill pygame.WHITE]) ++
         (pygame.shape <$>
            grid_picture (Grid.n_rows (Game.grid self1))
              (Grid.n_cols (Game.grid self1))
              (Grid.cell_size (Game.grid self1))
              (alive_cells (Game.grid self1)))) Hgame1 Hr Hp)
      as (self' & Hrun & Hfr' & Hr' & Hp' & Hboard).
    exists self'. split_and!; [|by eapply game_frame_trans|done..|].
    + cbn [Game.run]. rewrite (bind_ok _ _ _ _ _ (gets_run _ _)), Hr.
      rewrite (bind_ok _ _ _ _ _ (quiet_events_run self events He)).
      rewrite (bind_ok _ _ _ _ _ Hupd).
      rewrite (bind_ok _ _ _ _ _
                 (game_draw_run self1 screen (game_grid_wf _ Hgame1))).
      exact Hrun.
    + intros p Hin. cbn [length]. rewrite generations_succ.
      change (Game.grid self1) with g1 in Hboard.
      rewrite (frame_n_rows _ _ Hfr), (frame_n_cols _ _ Hfr) in Hboard.
      rewrite (Hboard p Hin). by apply generations_ext.
Qed.

Lemma unpaused_run_generations_witness :
  ∃ self',
    Game.run [[]; []] [] blinker_game = Raise StillRunning self' ∧
    game_frame blinker_game self' ∧
    Game.running self' = true ∧ Game.paused self' = false ∧
    ∀ p, in_grid (Grid.n_rows (Game.grid blinker_game))
                 (Grid.n_cols (Game.grid blinker_game)) p →
         alive_at (Game.grid self') p =
         generations (length [[]; [] : list (pygame.Event * pygame.mouse)])
           (Grid.n_rows (Game.grid blinker_game))
           (Grid.n_cols (Game.grid blinker_game))
           (alive_at (Game.grid blinker_game)) p.
Proof.
  apply (unpaused_run_generations blinker_game [[]; []] []).
  - apply blinker_game_wf.
  - by vm_compute.
  - by vm_compute.
  - repeat constructor.
Defined.

Lemma quit_clears_running (events : list (pygame.Event * pygame.mouse)) :
  ∀ (self self' : Game.t),
    quits events = true →
    Game.handle_events events self = Ok tt self' →
    Game.running self' = false.
Proof.
  induction events as [|[event m] events IH]; intros self self' Hq Hrun.
  - by apply bool_decide_eq_true, Exists_nil in Hq.
  - destruct event as [|key|].
    + cbn [Game.handle_events] in Hrun. unfold Py.modify in Hrun.
      by injection Hrun as <-.
    + rewrite quits_cons_other in Hq by done. cbn [Game.handle_events] in Hrun.
      apply bind_ok_inv in Hrun as ([] & s1 & _ & Hrun).
      apply bind_ok_inv in Hrun as ([] & s2 & _ & Hrun). by eapply IH.
    + rewrite quits_cons_other in Hq by done. cbn [Game.handle_events] in Hrun.
      apply bind_ok_inv in Hrun as ([] & s1 & _ & Hrun).
      apply bind_ok_inv in Hrun as ([] & s2 & _ & Hrun). by eapply IH.
Qed.

Lemma on_grid_running {A} (m : M Grid.t A) (self : Game.t) :
  Game.running (Py.state_of (Game.on_grid m self)) = Game.running self.
Proof. unfold Game.on_grid. by destruct (m (Game.grid self)). Qed.

Lemma update_step_running (self : Game.t) :
  Game.running (Py.state_of (Game.update_step self)) = Game.running self.
Proof.
  unfold Game.update_step. rewrite (bind_ok _ _ _ _ _ (gets_run _ _)).
  destruct (Game.paused self); [done|apply on_grid_running].
Qed.

Lemma draw_running (self : Game.t) screen :
  Game.running (Py.state_of (Game.draw screen self)) = Game.running self.
Proof.
  unfold Game.draw. rewrite bind_run.
  pose proof (on_grid_running (Grid.draw []) self) as Hr.
  by destruct (Game.on_grid (Grid.draw []) self).
Qed.

(** X16. A QUIT ends the loop at the end of its pass: the pass in which it
    arrives is completed (the grid is still updated if the game is
    unpaused, and the frame is drawn), a result reached has [running]
    cleared, and whatever input would have followed is never looked at. *)
Theorem quit_ends_run (self : Game.t)
    (events : list (pygame.Event * pygame.mouse))
    (later : list (list (pygame.Event * pygame.mouse)))
    (screen : pygame.Screen) :
  quits events = true →
  Game.run (events :: later) screen self =
    (running ← Py.gets Game.running;
     if running : bool then
       Game.handle_events events;; Game.update_step;; Game.draw screen
     else mret screen) self ∧
  ∀ screen' self',
    Game.run (events :: later) screen self = Ok screen' self' →
    Game.running self' = false.
Proof.
  intros Hq.
  assert (Game.run (events :: later) screen self =
          (running ← Py.gets Game.running;
           if running : bool then
             Game.handle_events events;; Game.update_step;; Game.draw screen
           else mret screen) self) as Heq.
  { cbn [Game.run]. rewrite !(bind_ok _ _ _ _ _ (gets_run _ _)).
    destruct (Game.running self) eqn:Hrun; [|done].
    rewrite !bind_run.
    destruct (Game.handle_events events self) as [[] s1|e s1] eqn:H1; [|done].
    pose proof (quit_clears_running events self s1 Hq H1) as Hr1.
    rewrite !bind_run. pose proof (update_step_running s1) as Hr2.
    destruct (Game.update_step s1) as [[] s2|e s2]; cbn in Hr2; [|done].
    rewrite !bind_run. pose proof (draw_running s2 screen) as Hr3.
    destruct (Game.draw screen s2) as [screen' s3|e s3]; cbn in Hr3; [|done].
    by rewrite run_stopped by congruence. }
  split; [done|]. rewrite Heq. intros screen' self'.
  rewrite (bind_ok _ _ _ _ _ (gets_run _ _)).
  destruct (Game.running self) eqn:Hrun; [|by intros [= _ <-]].
  intros ([] & s1 & H1 & ([] & s2 & H2 & H3)%bind_ok_inv)%bind_ok_inv.
  pose proof (quit_clears_running events self s1 Hq H1) as Hr1.
  pose proof (update_step_running s1) as Hr2. rewrite H2 in Hr2.
  pose proof (draw_running s2 screen) as Hr3. rewrite H3 in Hr3.
  cbn in Hr2, Hr3. congruence.
Qed.

Lemma quit_ends_run_witness :
  Game.run ([(pygame.QUIT, click 25 25)] :: [[(pygame.OTHER, click 5 5)]])
    [] blinker_game =
    (running ← Py.gets Game.running;
     if running : bool then
       Game.handle_events [(pygame.QUIT, click 25 25)];;
       Game.update_step;; Game.draw []
     else mret []) blinker_game ∧
  ∀ screen' self',
    Game.run ([(pygame.QUIT, click 25 25)] :: [[(pygame.OTHER, click 5 5)]])
      [] blinker_game = Ok screen' self' →
    Game.running self' = false.
Proof.
  apply (quit_ends_run blinker_game [(pygame.QUIT, click 25 25)]
           [[(pygame.OTHER, click 5 5)]] []).
  by vm_compute.
Defined.

(** ** Clicks and drawn cells *)

(** X17. Where cells are drawn, a click hits the cell it is on.  With an
    integer cell size greater than 0, the cell at indices (i, j) is drawn
    in the square with top-left pixel (i*cell_size, j*cell_size), and for
    every pixel (x, y) with 0 <= x < n_rows*cell_size and
    0 <= y < n_cols*cell_size the handler inverts the alive flag of the
    cell (x // cell_size, y // cell_size) and of no other cell; that cell is
    the one cell of the grid whose drawn square contains (x, y).  On a square grid these pixels are
    all the pixels of the window. *)
Theorem click_hits_drawn_cell (self : Game.t) (x y : Z) :
  game_wf self → 0 < Game.cell_size self →
  0 ≤ x < Grid.n_rows (Game.grid self) * Game.cell_size self →
  0 ≤ y < Grid.n_cols (Game.grid self) * Game.cell_size self →
  in_grid (Grid.n_rows (Game.grid self)) (Grid.n_cols (Game.grid self))
    (x `div` Game.cell_size self, y `div` Game.cell_size self) ∧
  Game.handle_mouse (click x y) self =
    Ok tt (Game.set_grid
             (toggled (Game.grid self)
                (x `div` Game.cell_size self, y `div` Game.cell_size self))
             self) ∧
  (∀ q,
     in_grid (Grid.n_rows (Game.grid self)) (Grid.n_cols (Game.grid self)) q →
     alive_at (toggled (Game.grid self)
                 (x `div` Game.cell_size self, y `div` Game.cell_size self)) q
     = if decide (q = (x `div` Game.cell_size self,
                       y `div` Game.cell_size self))
       then negb (alive_at (Game.grid self) q)
       else alive_at (Game.grid self) q) ∧
  (∀ q c,
     in_grid (Grid.n_rows (Game.grid self)) (Grid.n_cols (Game.grid self)) q →
     cell_at (Game.grid self) q.1 q.2 = Some c →
     (∀ surface,
        Cell.draw c surface =
        surface ++ [pygame.draw_rect pygame.BLACK
                      {| pygame.left := q.1 * Game.cell_size self;
                         pygame.top := q.2 * Game.cell_size self;
                         pygame.width := Game.cell_size self;
                         pygame.height := Game.cell_size self |}]) ∧
     (pygame.collidepoint (Cell.rect c) x y ↔
      q = (x `div` Game.cell_size self, y `div` Game.cell_size self))) ∧
  (Grid.n_rows (Game.grid self) = Grid.n_cols (Game.grid self) →
   ∀ x' y', 0 ≤ x' < Game.width self → 0 ≤ y' < Game.height self →
            0 ≤ x' < Grid.n_rows (Game.grid self) * Game.cell_size self ∧
            0 ≤ y' < Grid.n_cols (Game.grid self) * Game.cell_size self).
Proof.
  intros Hgame Hcs Hx Hy.
  pose proof (click_cell_in_grid (Grid.n_rows (Game.grid self))
                (Grid.n_cols (Game.grid self)) (Game.cell_size self) x y
                Hcs Hx Hy) as Hin.
  destruct Hgame as [Hwf Hsize Hwidth Hheight].
  split_and!.
  - done.
  - destruct Hin as [Hi Hj]. cbn [fst snd] in Hi, Hj.
    rewrite click_run by (done || lia). by rewrite !Z.mod_small by lia.
  - by apply toggled_spec.
  - intros [i j] c Hq Hc. cbn [fst snd] in *.
    unfold cell_at in Hc. apply bind_Some in Hc as (l & Hl & Hc).
    destruct (wf_loc_cell _ _ _ _ Hwf Hl) as (c' & Hc' & _ & _ & Hrect).
    assert (c' = c) as -> by congruence.
    rewrite Hsize in Hrect. cbn in Hrect. split.
    + intros surface. unfold Cell.draw. by rewrite Hrect.
    + rewrite Hrect. unfold pygame.collidepoint. cbn.
      rewrite !div_cell by done. split; [by intros [-> ->]|by intros [= -> ->]].
  - intros Hsq x' y'. rewrite Hwidth, Hheight, Hsq. tauto.
Qed.

Lemma click_hits_drawn_cell_witness :
  in_grid (Grid.n_rows (Game.grid (Game.make 3 3 10)))
          (Grid.n_cols (Game.grid (Game.make 3 3 10)))
    (25 `div` Game.cell_size (Game.make 3 3 10),
     5 `div` Game.cell_size (Game.make 3 3 10)) ∧
  Game.handle_mouse (click 25 5) (Game.make 3 3 10) =
    Ok tt (Game.set_grid
             (toggled (Game.grid (Game.make 3 3 10))
                (25 `div` Game.cell_size (Game.make 3 3 10),
                 5 `div` Game.cell_size (Game.make 3 3 10)))
             (Game.make 3 3 10)) ∧
  (∀ q,
     in_grid (Grid.n_rows (Game.grid (Game.make 3 3 10)))
             (Grid.n_cols (Game.grid (Game.make 3 3 10))) q →
     alive_at (toggled (Game.grid (Game.make 3 3 10))
                 (25 `div` Game.cell_size (Game.make 3 3 10),
                  5 `div` Game.cell_size (Game.make 3 3 10))) q
     = if decide (q = (25 `div` Game.cell_size (Game.make 3 3 10),
                       5 `div` Game.cell_size (Game.make 3 3 10)))
       then negb (alive_at (Game.grid (Game.make 3 3 10)) q)
       else alive_at (Game.grid (Game.make 3 3 10)) q) ∧
  (∀ q c,
     in_grid (Grid.n_rows (Game.grid (Game.make 3 3 10)))
             (Grid.n_cols (Game.grid (Game.make 3 3 10))) q →
     cell_at (Game.grid (Game.make 3 3 10)) q.1 q.2 = Some c →
     (∀ surface,
        Cell.draw c surface =
        surface ++ [pygame.draw_rect pygame.BLACK
                      {| pygame.left := q.1 * Game.cell_size (Game.make 3 3 10);
                         pygame.top := q.2 * Game.cell_size (Game.make 3 3 10);
                         pygame.width := Game.cell_size (Game.make 3 3 10);
                         pygame.height := Game.cell_size (Game.make 3 3 10) |}]) ∧
     (pygame.collidepoint (Cell.rect c) 25 5 ↔
      q = (25 `div` Game.cell_size (Game.make 3 3 10),
           5 `div` Game.cell_size (Game.make 3 3 10)))) ∧
  (Grid.n_rows (Game.grid (Game.make 3 3 10))
   = Grid.n_cols (Game.grid (Game.make 3 3 10)) →
   ∀ x' y', 0 ≤ x' < Game.width (Game.make 3 3 10) →
            0 ≤ y' < Game.height (Game.make 3 3 10) →
            0 ≤ x' < Grid.n_rows (Game.grid (Game.make 3 3 10))
                     * Game.cell_size (Game.make 3 3 10) ∧
            0 ≤ y' < Grid.n_cols (Game.grid (Game.make 3 3 10))
                     * Game.cell_size (Game.make 3 3 10)).
Proof.
  apply (click_hits_drawn_cell (Game.make 3 3 10) 25 5).
  - apply make_game_wf.
  - by vm_compute.
  - by vm_compute.
  - by vm_compute.
Defined.
